(** * TubeThumb AI: request assembly and session workflow

    A shallow embedding of the service layer ([optimizeTitle],
    [generateThumbnail], [editThumbnail]) and of the handlers of the
    [CreatorStudio] component ([handleTitleOptimize], [handleGenerate],
    [handleEdit]), with the properties of the request builder and of the
    session controller proved about them.

    JavaScript strings are sequences of UTF-16 code units; React state is
    an explicit record threaded through the handlers; the remote model and
    the wall clock live in a [World] that a small state monad threads
    through every call. *)

From Stdlib Require Import List Bool Arith ZArith NArith Lia.
From Stdlib Require Import Ascii String DecimalString DecimalZ.
Import ListNotations.

(* ------------------------------------------------------------------ *)
(** * JavaScript strings *)

Module Js.

(** A UTF-16 code unit. *)
Definition char16 := N.

Definition jsstring := list char16.

(** An ASCII literal of the source, as code units. *)
Definition lit (s : string) : jsstring :=
  map N_of_ascii (list_ascii_of_string s).

(** Truthiness of a string: only [""] is falsy. *)
Definition truthy (s : jsstring) : bool :=
  match s with
  | [] => false
  | _ :: _ => true
  end.

(** Truthiness of [string | null | undefined]. *)
Definition truthy_opt (o : option jsstring) : bool :=
  match o with
  | Some s => truthy s
  | None => false
  end.

(** ECMAScript [WhiteSpace] and [LineTerminator] code points, the ones
    [String.prototype.trim] strips. *)
Definition isWhiteSpace (c : char16) : bool :=
  (  (c =? 9) || (c =? 10) || (c =? 11) || (c =? 12) || (c =? 13)
  || (c =? 32) || (c =? 160) || (c =? 5760)
  || ((8192 <=? c) && (c <=? 8202))
  || (c =? 8232) || (c =? 8233) || (c =? 8239) || (c =? 8287)
  || (c =? 12288) || (c =? 65279))%N.

Fixpoint trimStart (s : jsstring) : jsstring :=
  match s with
  | [] => []
  | c :: rest => if isWhiteSpace c then trimStart rest else s
  end.

Definition trimEnd (s : jsstring) : jsstring :=
  rev (trimStart (rev s)).

(** [s.trim()] *)
Definition trim (s : jsstring) : jsstring :=
  trimEnd (trimStart s).

(** A string that is empty or made of white space only. *)
Definition whitespace_only (s : jsstring) : bool :=
  forallb isWhiteSpace s.

(** [n.toString()] for an integer [n] (below 1e21 in absolute value,
    where JavaScript prints every digit). *)
Definition Number_toString (n : Z) : jsstring :=
  lit (NilEmpty.string_of_int (Z.to_int n)).

End Js.
Import Js.

(* ------------------------------------------------------------------ *)
(** * types.ts *)

Inductive ImageSize := Size1K | Size2K | Size4K.

(** The string value of an [ImageSize] member. *)
Definition ImageSize_value (z : ImageSize) : jsstring :=
  match z with
  | Size1K => lit "1K"
  | Size2K => lit "2K"
  | Size4K => lit "4K"
  end.

Inductive VideoFormat := long_form | shorts | facebook.

Definition VideoFormat_eqb (a b : VideoFormat) : bool :=
  match a, b with
  | long_form, long_form | shorts, shorts | facebook, facebook => true
  | _, _ => false
  end.

Inductive LoadingState :=
  idle | optimizing_title | generating_image | editing_image.

Definition LoadingState_eqb (a b : LoadingState) : bool :=
  match a, b with
  | idle, idle | optimizing_title, optimizing_title
  | generating_image, generating_image | editing_image, editing_image => true
  | _, _ => false
  end.

Record GeneratedImage := mkGeneratedImage {
  gi_id : jsstring;
  gi_data : jsstring;
  gi_mimeType : jsstring;
  gi_prompt : jsstring;
  gi_timestamp : Z;
  gi_format : VideoFormat
}.

(* ------------------------------------------------------------------ *)
(** * The remote model and the clock *)

(** A part of an outgoing request: [{ text }] or
    [{ inlineData: { mimeType, data } }]. *)
Inductive Part :=
| TextPart (text : jsstring)
| InlineData (mimeType data : jsstring).

Inductive Contents :=
| ContentsText (text : jsstring)
| ContentsParts (parts : list Part).

Inductive Config :=
| NoConfig
| JsonTitlesConfig
| ImageConfig (imageSize : ImageSize) (aspectRatio : jsstring).

Record ApiRequest := mkRequest {
  req_model : jsstring;
  req_contents : Contents;
  req_config : Config
}.

(** A part of a response; [inlineData.data] may be missing. *)
Inductive ResponsePart :=
| RText (text : jsstring)
| RInlineData (data : option jsstring).

Record Content := mkContent { content_parts : option (list ResponsePart) }.
Record Candidate := mkCandidate { cand_content : option Content }.

Record Response := mkResponse {
  resp_text : option jsstring;
  resp_candidates : option (list Candidate)
}.

(** What awaiting a promise yields. *)
Inductive Outcome (A : Type) :=
| Resolved (a : A)
| Rejected.
Arguments Resolved {A} a.
Arguments Rejected {A}.

(** The world outside the component: the requests sent so far, what the
    remote model answers to the n-th request, and what the n-th reading
    of [Date.now()] returns. *)
Record World := mkWorld {
  sent : list ApiRequest;
  backend : nat -> ApiRequest -> Outcome Response;
  reads : nat;
  clock : nat -> Z
}.

Definition M (A : Type) : Type := World -> A * World.

Definition ret {A} (a : A) : M A := fun w => (a, w).

Definition bind {A B} (m : M A) (k : A -> M B) : M B :=
  fun w => let (a, w') := m w in k a w'.

Declare Scope world_scope.
Delimit Scope world_scope with world.
Notation "x <- m ;; k" := (bind m (fun x => k))
  (at level 100, m at next level, right associativity) : world_scope.
Open Scope world_scope.

(** [await ai.models.generateContent(request)] *)
Definition generateContent (q : ApiRequest) : M (Outcome Response) :=
  fun w =>
    (backend w (List.length (sent w)) q,
     mkWorld (sent w ++ [q]) (backend w) (reads w) (clock w)).

(** [Date.now()] *)
Definition Date_now : M Z :=
  fun w =>
    (clock w (reads w),
     mkWorld (sent w) (backend w) (S (reads w)) (clock w)).

(* ------------------------------------------------------------------ *)
(** * geminiService.ts *)

(** [response.candidates?.[0]?.content?.parts || []] *)
Definition first_candidate_parts (r : Response) : list ResponsePart :=
  match resp_candidates r with
  | Some (c :: _) =>
      match cand_content c with
      | Some ct =>
          match content_parts ct with
          | Some ps => ps
          | None => []
          end
      | None => []
      end
  | _ => []
  end.

(** The loop [for (const part of ...) if (part.inlineData) return
    part.inlineData.data;] followed by [return null]. *)
Fixpoint first_inlineData (ps : list ResponsePart) : option jsstring :=
  match ps with
  | [] => None
  | RInlineData d :: _ => d
  | RText _ :: rest => first_inlineData rest
  end.

Definition image_png : jsstring := lit "image/png".

(** The double quote character. *)
Definition dquote : jsstring := [34%N].

(** The separator [" \n\n"] of the prompt templates: a space and two
    line feeds. *)
Definition para : jsstring := [32%N; 10%N; 10%N].

(** The string held by a truthy optional argument. *)
Definition value_of (o : option jsstring) : jsstring :=
  match o with
  | Some s => s
  | None => []
  end.

(** [xs.forEach((x, idx) => ...)] over an accumulated array, [i] being the
    index of the head of [xs]. *)
Fixpoint forEach {A T : Type} (f : A -> nat -> T -> T) (xs : list A) (i : nat) (acc : T) : T :=
  match xs with
  | [] => acc
  | x :: rest => forEach f rest (S i) (f x i acc)
  end.

(** What the service functions do with the awaited response: the first
    inline image of the first candidate, [null] when there is none, and a
    rethrow when the call failed. *)
Definition scan_response (r : Outcome Response) : Outcome (option jsstring) :=
  match r with
  | Resolved response => Resolved (first_inlineData (first_candidate_parts response))
  | Rejected => Rejected
  end.

Section GenerateThumbnail.

Variables (prompt title : jsstring) (size : ImageSize) (format : VideoFormat).
Variables (headshot : option jsstring) (referenceImages : list jsstring).
Variables (logo brandColors : option jsstring).

Definition isShorts : bool := VideoFormat_eqb format shorts.
Definition isFacebook : bool := VideoFormat_eqb format facebook.

Definition aspectRatio : jsstring :=
  let aspectRatio := lit "16:9" in
  let aspectRatio := if isShorts then lit "9:16" else aspectRatio in
  let aspectRatio := if isFacebook then lit "1:1" else aspectRatio in
  aspectRatio.

Definition textPrompt : jsstring :=
  let textPrompt :=
    if isFacebook then
      let t := lit "Create a high-quality image for a Facebook post." in
      let t :=
        if truthy title
        then t ++ lit " The headline or text overlay context is " ++ dquote
               ++ title ++ dquote ++ lit "."
        else t in
      let t := t ++ para ++ lit "Story/Context: " ++ prompt in
      let t := t ++ para ++ lit "Format: Square 1:1. Composition balanced for social feed." in
      t ++ para ++ lit "Style: Natural, authentic, lifestyle photography or clean editorial graphic. Less aggressive than a YouTube thumbnail. Inviting, relatable, and story-driven."
    else
      let t := lit "Create a high-quality YouTube "
               ++ (if isShorts then lit "Shorts" else []) ++ lit " thumbnail." in
      let t :=
        if truthy title
        then t ++ lit " The video title is " ++ dquote ++ title ++ dquote
               ++ lit ". Include this text or related engaging typography in the thumbnail."
        else t in
      let t := t ++ para ++ lit "Visual Description: " ++ prompt in
      let t :=
        if isShorts
        then t ++ para ++ lit "Format: Vertical 9:16. Composition must be centered and optimized for mobile full-screen viewing. Keep key visual elements within the safe zone (avoiding top/bottom UI areas). Bold, readable text."
        else t ++ para ++ lit "Format: Horizontal 16:9. Cinematic composition, rule of thirds." in
      t ++ para ++ lit "Style: High contrast, vibrant colors, expressive facial expressions (if people are present), clear focal point. Professional YouTuber style." in
  if truthy_opt brandColors then
    textPrompt ++ para ++ lit "Color Palette: Use these specific brand colors: "
    ++ value_of brandColors
    ++ lit ". Ensure they are dominant or used as accents to maintain brand identity."
  else textPrompt.

(** [parts.push(x)] *)
Definition push (parts : list Part) (x : Part) : list Part := parts ++ [x].

(** The body of the [referenceImages.forEach] callback. *)
Definition push_reference (ref : jsstring) (idx : nat) (parts : list Part) : list Part :=
  let parts := push parts (InlineData image_png ref) in
  push parts
    (TextPart (lit "Reference style/composition from image #"
               ++ Number_toString (Z.of_nat (idx + 1)) ++ lit ".")).

Definition subjectTerm : jsstring :=
  if isFacebook then lit "image" else lit "thumbnail".

Definition parts : list Part :=
  let parts := [TextPart textPrompt] in
  let parts :=
    if truthy_opt headshot then
      let parts := push parts (InlineData image_png (value_of headshot)) in
      push parts
        (TextPart (lit "Use the person in this image as the main subject in the "
                   ++ subjectTerm
                   ++ lit ". Integrate them naturally matching the lighting and style."))
    else parts in
  let parts :=
    if truthy_opt logo then
      let parts := push parts (InlineData image_png (value_of logo)) in
      push parts
        (TextPart (lit "Integrate this logo into the image. Place it clearly (e.g. corner or branding area) without obstructing the main subject."))
    else parts in
  forEach push_reference referenceImages 0 parts.

(** The argument of [ai.models.generateContent] in [generateThumbnail]. *)
Definition generateThumbnail_request : ApiRequest :=
  mkRequest (lit "gemini-3-pro-image-preview")
            (ContentsParts parts)
            (ImageConfig size aspectRatio).

Definition generateThumbnail : M (Outcome (option jsstring)) :=
  response <- generateContent generateThumbnail_request ;;
  ret (scan_response response).

End GenerateThumbnail.

(** The argument of [ai.models.generateContent] in [editThumbnail]. *)
Definition editThumbnail_request (originalImageBase64 editInstruction : jsstring) : ApiRequest :=
  mkRequest (lit "gemini-2.5-flash-image")
            (ContentsParts
               [ InlineData image_png originalImageBase64;
                 TextPart (lit "Edit instruction: " ++ editInstruction
                           ++ lit ". Maintain the aspect ratio and high quality.") ])
            NoConfig.

Definition editThumbnail (originalImageBase64 editInstruction : jsstring)
  : M (Outcome (option jsstring)) :=
  response <- generateContent (editThumbnail_request originalImageBase64 editInstruction) ;;
  ret (scan_response response).

(** The argument of [ai.models.generateContent] in [optimizeTitle]. *)
Definition optimizeTitle_request (title : jsstring) : ApiRequest :=
  mkRequest (lit "gemini-2.5-flash")
            (ContentsText
               (lit "Analyze this YouTube video title: " ++ dquote ++ title ++ dquote
                ++ lit ". Generate 5 shortened, high-CTR (Click Through Rate), punchy alternative titles that would work well on a thumbnail or as a video title."))
            JsonTitlesConfig.

Section OptimizeTitle.

(** [JSON.parse(text).titles || []], a builtin of the platform: the
    titles of the parsed document, or a thrown error. *)
Variable JSON_parse_titles : jsstring -> Outcome (list jsstring).

Definition optimizeTitle (title : jsstring) : M (Outcome (list jsstring)) :=
  response <- generateContent (optimizeTitle_request title) ;;
  ret (match response with
       | Rejected => Rejected
       | Resolved r =>
           if truthy_opt (resp_text r)
           then JSON_parse_titles (value_of (resp_text r))
           else Resolved []
       end).

End OptimizeTitle.

(* ------------------------------------------------------------------ *)
(** * CreatorStudio.tsx: the state of the component *)

(** An uploaded file: [{ name, data }]. *)
Record Upload := mkUpload {
  up_name : jsstring;
  up_data : jsstring
}.

Record State := mkState {
  title : jsstring;
  optimizedTitles : list jsstring;
  prompt : jsstring;
  imageSize : ImageSize;
  videoFormat : VideoFormat;
  headshot : option Upload;
  logo : option Upload;
  referenceImages : list Upload;
  brandColors : jsstring;
  generatedImage : option GeneratedImage;
  editPrompt : jsstring;
  loadingState : LoadingState;
  error : option jsstring
}.

(** The initial values of the [useState] hooks. *)
Definition initialState : State :=
  mkState [] [] [] Size1K long_form None None [] [] None [] idle None.

Definition setOptimizedTitles (v : list jsstring) (s : State) : State :=
  mkState (title s) v (prompt s) (imageSize s) (videoFormat s) (headshot s)
          (logo s) (referenceImages s) (brandColors s) (generatedImage s)
          (editPrompt s) (loadingState s) (error s).

Definition setGeneratedImage (v : option GeneratedImage) (s : State) : State :=
  mkState (title s) (optimizedTitles s) (prompt s) (imageSize s) (videoFormat s)
          (headshot s) (logo s) (referenceImages s) (brandColors s) v
          (editPrompt s) (loadingState s) (error s).

Definition setEditPrompt (v : jsstring) (s : State) : State :=
  mkState (title s) (optimizedTitles s) (prompt s) (imageSize s) (videoFormat s)
          (headshot s) (logo s) (referenceImages s) (brandColors s)
          (generatedImage s) v (loadingState s) (error s).

Definition setLoadingState (v : LoadingState) (s : State) : State :=
  mkState (title s) (optimizedTitles s) (prompt s) (imageSize s) (videoFormat s)
          (headshot s) (logo s) (referenceImages s) (brandColors s)
          (generatedImage s) (editPrompt s) v (error s).

Definition setError (v : option jsstring) (s : State) : State :=
  mkState (title s) (optimizedTitles s) (prompt s) (imageSize s) (videoFormat s)
          (headshot s) (logo s) (referenceImages s) (brandColors s)
          (generatedImage s) (editPrompt s) (loadingState s) v.

(** The messages the handlers put in the error slot. *)
Definition msg_optimize_failed : jsstring :=
  lit "Failed to optimize title. Please try again.".
Definition msg_prompt_missing : jsstring :=
  lit "Please enter a description or story for the image.".
Definition msg_no_image : jsstring := lit "No image generated.".
Definition msg_generation_failed : jsstring :=
  lit "Generation failed. Try a simpler prompt or fewer references.".
Definition msg_editing_failed : jsstring := lit "Editing failed.".

(* ------------------------------------------------------------------ *)
(** * CreatorStudio.tsx: the handlers

    A handler is a closure over the state of the render it was created
    in.  It runs up to its [await] at once ([_begin]: the guard and the
    first setters; [false] when the guard returned early), the service
    call is dispatched, and what follows the [await] ([_settle]) runs when
    the promise settles: it still reads the captured state [cap], while
    its setters act on the state [cur] the component has by then. *)

Section Handlers.

Variable JSON_parse_titles : jsstring -> Outcome (list jsstring).

(** ** handleTitleOptimize *)

Definition handleTitleOptimize_begin (s : State) : State * bool :=
  if negb (truthy (trim (title s))) then (s, false)
  else (setError None (setLoadingState optimizing_title s), true).

Definition handleTitleOptimize_settle
    (r : Outcome (list jsstring)) (cur : State) : State :=
  let cur :=
    match r with
    | Resolved suggestions => setOptimizedTitles suggestions cur
    | Rejected => setError (Some msg_optimize_failed) cur
    end in
  setLoadingState idle cur.

Definition handleTitleOptimize (s : State) : M State :=
  let (s1, started) := handleTitleOptimize_begin s in
  if started then
    r <- optimizeTitle JSON_parse_titles (title s) ;;
    ret (handleTitleOptimize_settle r s1)
  else ret s1.

(** ** handleGenerate *)

Definition handleGenerate_begin (s : State) : State * bool :=
  if negb (truthy (trim (prompt s)))
  then (setError (Some msg_prompt_missing) s, false)
  else (setError None (setLoadingState generating_image s), true).

(** The call [generateThumbnail(prompt, title, imageSize, videoFormat,
    headshot?.data, refData, logo?.data, brandColors)]. *)
Definition handleGenerate_call (s : State) : M (Outcome (option jsstring)) :=
  let refData := map up_data (referenceImages s) in
  generateThumbnail (prompt s) (title s) (imageSize s) (videoFormat s)
                    (option_map up_data (headshot s))
                    refData
                    (option_map up_data (logo s))
                    (Some (brandColors s)).

Definition handleGenerate_settle
    (cap : State) (r : Outcome (option jsstring)) (cur : State) : M State :=
  cur <-
    match r with
    | Resolved resultBase64 =>
        if truthy_opt resultBase64 then
          id <- Date_now ;;
          timestamp <- Date_now ;;
          ret (setGeneratedImage
                 (Some (mkGeneratedImage (Number_toString id)
                                         (value_of resultBase64)
                                         image_png
                                         (prompt cap)
                                         timestamp
                                         (videoFormat cap)))
                 cur)
        else ret (setError (Some msg_no_image) cur)
    | Rejected => ret (setError (Some msg_generation_failed) cur)
    end ;;
  ret (setLoadingState idle cur).

Definition handleGenerate (s : State) : M State :=
  let (s1, started) := handleGenerate_begin s in
  if started then
    r <- handleGenerate_call s ;;
    handleGenerate_settle s r s1
  else ret s1.

(** ** handleEdit *)

Definition handleEdit_begin (s : State) : State * bool :=
  match generatedImage s with
  | None => (s, false)
  | Some _ =>
      if negb (truthy (trim (editPrompt s))) then (s, false)
      else (setError None (setLoadingState editing_image s), true)
  end.

(** The call [editThumbnail(generatedImage.data, editPrompt)]; it is
    reached with an image in the captured state only. *)
Definition handleEdit_call (s : State) : M (Outcome (option jsstring)) :=
  match generatedImage s with
  | Some g => editThumbnail (gi_data g) (editPrompt s)
  | None => ret Rejected
  end.

Definition handleEdit_settle
    (r : Outcome (option jsstring)) (cur : State) : M State :=
  cur <-
    match r with
    | Resolved resultBase64 =>
        if truthy_opt resultBase64 then
          cur <-
            match generatedImage cur with
            | Some prev =>
                id <- Date_now ;;
                ret (setGeneratedImage
                       (Some (mkGeneratedImage (Number_toString id)
                                               (value_of resultBase64)
                                               (gi_mimeType prev)
                                               (gi_prompt prev)
                                               (gi_timestamp prev)
                                               (gi_format prev)))
                       cur)
            | None => ret (setGeneratedImage None cur)
            end ;;
          ret (setEditPrompt [] cur)
        else ret cur
    | Rejected => ret (setError (Some msg_editing_failed) cur)
    end ;;
  ret (setLoadingState idle cur).

Definition handleEdit (s : State) : M State :=
  let (s1, started) := handleEdit_begin s in
  if started then
    r <- handleEdit_call s ;;
    handleEdit_settle r s1
  else ret s1.

(** ** The Generate button

    [<button onClick={handleGenerate}
             disabled={loadingState !== 'idle' || !prompt}>];
    a disabled button delivers no click, and nothing else refers to
    [handleGenerate]. *)

Definition generate_disabled (s : State) : bool :=
  negb (LoadingState_eqb (loadingState s) idle) || negb (truthy (prompt s)).

Definition click_generate (s : State) : M State :=
  if generate_disabled s then ret s else handleGenerate s.

End Handlers.

(* ------------------------------------------------------------------ *)
(** * The three operations of the session controller *)

Inductive Operation := TitleOptimization | ImageGeneration | ImageEdit.

(** The part of an operation's handler that runs before its [await]. *)
Definition begins (op : Operation) : State -> State * bool :=
  match op with
  | TitleOptimization => handleTitleOptimize_begin
  | ImageGeneration => handleGenerate_begin
  | ImageEdit => handleEdit_begin
  end.

(** The handler of an operation, run from its start to the end of its
    [finally] block. *)
Definition handler (JSON_parse_titles : jsstring -> Outcome (list jsstring))
    (op : Operation) : State -> M State :=
  match op with
  | TitleOptimization => handleTitleOptimize JSON_parse_titles
  | ImageGeneration => handleGenerate
  | ImageEdit => handleEdit
  end.

(* ------------------------------------------------------------------ *)
(** * The generation request as the specification describes it *)

(** The prompt text of a request: its leading text part. *)
Definition promptText (q : ApiRequest) : option jsstring :=
  match req_contents q with
  | ContentsParts (TextPart t :: _) => Some t
  | _ => None
  end.

(** The attachments of a request: what follows the prompt text. *)
Definition attachments (q : ApiRequest) : list Part :=
  match req_contents q with
  | ContentsParts (_ :: rest) => rest
  | _ => []
  end.

(** The aspect ratio a request asks for. *)
Definition request_aspectRatio (q : ApiRequest) : option jsstring :=
  match req_config q with
  | ImageConfig _ a => Some a
  | _ => None
  end.

(** wide to 16:9, vertical to 9:16, square to 1:1. *)
Definition ratio_of_format (f : VideoFormat) : jsstring :=
  match f with
  | long_form => lit "16:9"
  | shorts => lit "9:16"
  | facebook => lit "1:1"
  end.

(** An image followed by its caption. *)
Definition captioned (image caption : jsstring) : list Part :=
  [InlineData image_png image; TextPart caption].

(** The pair of an optional image; an image is present when it is given
    and is not the empty string. *)
Definition optional_pair (image : option jsstring) (caption : jsstring) : list Part :=
  match image with
  | Some (c :: rest) => captioned (c :: rest) caption
  | _ => []
  end.

Definition subject_caption (f : VideoFormat) : jsstring :=
  lit "Use the person in this image as the main subject in the "
  ++ match f with facebook => lit "image" | _ => lit "thumbnail" end
  ++ lit ". Integrate them naturally matching the lighting and style.".

Definition logo_caption : jsstring :=
  lit "Integrate this logo into the image. Place it clearly (e.g. corner or branding area) without obstructing the main subject.".

Definition reference_caption (n : nat) : jsstring :=
  lit "Reference style/composition from image #" ++ Number_toString (Z.of_nat n) ++ lit ".".

(** Every reference with the caption of its 1-based position. *)
Definition numbered_references (refs : list jsstring) : list Part :=
  flat_map (fun nr => captioned (snd nr) (reference_caption (fst nr)))
           (combine (seq 1 (List.length refs)) refs).

Definition attachment_sequence
    (f : VideoFormat) (subject logo : option jsstring) (refs : list jsstring) : list Part :=
  optional_pair subject (subject_caption f)
  ++ optional_pair logo logo_caption
  ++ numbered_references refs.

(* ------------------------------------------------------------------ *)
(** * Sample sessions *)

Module Sample.

(** A model that always answers with the given parts. *)
Definition answering (ps : list ResponsePart) : nat -> ApiRequest -> Outcome Response :=
  fun _ _ =>
    Resolved (mkResponse None (Some [mkCandidate (Some (mkContent (Some ps)))])).

(** A model whose every call fails. *)
Definition failing : nat -> ApiRequest -> Outcome Response :=
  fun _ _ => Rejected.

(** A clock that starts at [t0] and advances one millisecond a reading. *)
Definition ticking (t0 : Z) : nat -> Z := fun n => (t0 + Z.of_nat n)%Z.

Definition world (b : nat -> ApiRequest -> Outcome Response) : World :=
  mkWorld [] b 0 (ticking 1700000000000).

Definition bytes_A : jsstring := lit "iVBORw0KGgoAAAANSUhEUgAA".
Definition bytes_B : jsstring := lit "R0lGODlhAQABAIAAAAUEBAAA".

Definition old_image : GeneratedImage :=
  mkGeneratedImage (lit "1699999990000") bytes_A image_png
                   (lit "city at night") 1699999990000 long_form.

(** A vertical session with a prompt, an image on screen, an edit
    instruction typed in and a stale error shown. *)
Definition session : State :=
  mkState (lit "My Trip to Japan") [] (lit "sunset over mountains")
          Size1K shorts None None [] [] (Some old_image)
          (lit "add retro filter") idle (Some (lit "No image generated.")).

(** The same session with nothing but spaces in the prompt. *)
Definition blank_session : State :=
  mkState (lit "My Trip to Japan") [] (lit "   ")
          Size1K shorts None None [] [] (Some old_image)
          (lit "add retro filter") idle None.

(** The same session while an edit is in flight. *)
Definition busy_session : State :=
  setLoadingState editing_image session.

(** [JSON.parse] of a model that never yields a title. *)
Definition no_titles : jsstring -> Outcome (list jsstring) :=
  fun _ => Resolved [].

End Sample.

(* ------------------------------------------------------------------ *)
(** * CreatorStudio.tsx: inputs, uploads and buttons *)

Definition setTitle (v : jsstring) (s : State) : State :=
  mkState v (optimizedTitles s) (prompt s) (imageSize s) (videoFormat s)
          (headshot s) (logo s) (referenceImages s) (brandColors s)
          (generatedImage s) (editPrompt s) (loadingState s) (error s).

Definition setPrompt (v : jsstring) (s : State) : State :=
  mkState (title s) (optimizedTitles s) v (imageSize s) (videoFormat s)
          (headshot s) (logo s) (referenceImages s) (brandColors s)
          (generatedImage s) (editPrompt s) (loadingState s) (error s).

Definition setImageSize (v : ImageSize) (s : State) : State :=
  mkState (title s) (optimizedTitles s) (prompt s) v (videoFormat s)
          (headshot s) (logo s) (referenceImages s) (brandColors s)
          (generatedImage s) (editPrompt s) (loadingState s) (error s).

Definition setVideoFormat (v : VideoFormat) (s : State) : State :=
  mkState (title s) (optimizedTitles s) (prompt s) (imageSize s) v
          (headshot s) (logo s) (referenceImages s) (brandColors s)
          (generatedImage s) (editPrompt s) (loadingState s) (error s).

Definition setHeadshot (v : option Upload) (s : State) : State :=
  mkState (title s) (optimizedTitles s) (prompt s) (imageSize s) (videoFormat s)
          v (logo s) (referenceImages s) (brandColors s)
          (generatedImage s) (editPrompt s) (loadingState s) (error s).

Definition setLogo (v : option Upload) (s : State) : State :=
  mkState (title s) (optimizedTitles s) (prompt s) (imageSize s) (videoFormat s)
          (headshot s) v (referenceImages s) (brandColors s)
          (generatedImage s) (editPrompt s) (loadingState s) (error s).

Definition setReferenceImages (v : list Upload) (s : State) : State :=
  mkState (title s) (optimizedTitles s) (prompt s) (imageSize s) (videoFormat s)
          (headshot s) (logo s) v (brandColors s)
          (generatedImage s) (editPrompt s) (loadingState s) (error s).

Definition setBrandColors (v : jsstring) (s : State) : State :=
  mkState (title s) (optimizedTitles s) (prompt s) (imageSize s) (videoFormat s)
          (headshot s) (logo s) (referenceImages s) v
          (generatedImage s) (editPrompt s) (loadingState s) (error s).

(** [xs.filter((x, i) => p(x, i))], [i] being the index of the head of
    [xs]. *)
Fixpoint filter_indexed {A : Type} (p : A -> nat -> bool) (xs : list A) (i : nat) : list A :=
  match xs with
  | [] => []
  | x :: rest =>
      if p x i then x :: filter_indexed p rest (S i)
      else filter_indexed p rest (S i)
  end.

(** [setReferenceImages(prev => prev.filter((_, i) => i !== index))] *)
Definition removeReference (index : nat) (s : State) : State :=
  setReferenceImages
    (filter_indexed (fun _ i => negb (i =? index)) (referenceImages s) 0) s.

(** The comma. *)
Definition comma : char16 := 44%N.

(** [s.split(',')]: the pieces of [s] between its commas; one piece, [s]
    itself, when it has none. *)
Fixpoint split_comma (s : jsstring) : list jsstring :=
  match s with
  | [] => [[]]
  | c :: rest =>
      if (c =? comma)%N then [] :: split_comma rest
      else match split_comma rest with
           | piece :: pieces => (c :: piece) :: pieces
           | [] => [[c]]
           end
  end.

(** [fileToBase64], from what the [FileReader] ends with: its result on
    [onload], a rejection on [onerror].  The promise resolves with
    [encoded.split(',')[1]], which is [undefined] when there is no
    comma. *)
Definition fileToBase64 (read : Outcome jsstring) : Outcome (option jsstring) :=
  match read with
  | Resolved encoded => Resolved (nth_error (split_comma encoded) 1)
  | Rejected => Rejected
  end.

(** A chosen file: its name and what reading it as a data URL gives. *)
Record File := mkFile {
  file_name : jsstring;
  file_read : Outcome jsstring
}.

(** ['headshot' | 'reference' | 'logo'] *)
Inductive UploadType := as_headshot | as_reference | as_logo.

Definition msg_process_failed : jsstring := lit "Failed to process image.".

(** [handleFileUpload(e, type)], [files] being [e.target.files] and [cur]
    the state when the read has finished.  The result is [None] where the
    source would store [undefined] as the data of an upload, which the
    [string] field of the state does not hold. *)
Definition handleFileUpload
    (files : option (list File)) (type : UploadType) (cur : State) : option State :=
  match files with
  | Some (file :: _) =>
      match fileToBase64 (file_read file) with
      | Resolved (Some base64) =>
          let upload := mkUpload (file_name file) base64 in
          Some (match type with
                | as_headshot => setHeadshot (Some upload) cur
                | as_logo => setLogo (Some upload) cur
                | as_reference =>
                    setReferenceImages (referenceImages cur ++ [upload]) cur
                end)
      | Resolved None => None
      | Rejected => Some (setError (Some msg_process_failed) cur)
      end
  | _ => Some cur
  end.

(** The request [handleGenerate] hands to the service for a state. *)
Definition handleGenerate_request (s : State) : ApiRequest :=
  generateThumbnail_request (prompt s) (title s) (imageSize s) (videoFormat s)
                            (option_map up_data (headshot s))
                            (map up_data (referenceImages s))
                            (option_map up_data (logo s))
                            (Some (brandColors s)).

(** [x] occurs in [s], in one piece. *)
Definition contains (x s : jsstring) : Prop :=
  exists pre post, s = pre ++ x ++ post.

(** ** The buttons and the edit input *)

(** The Optimize button is rendered when the format is not facebook, and
    [disabled={loadingState !== 'idle' || !title}]. *)
Definition optimize_rendered (s : State) : bool :=
  negb (VideoFormat_eqb (videoFormat s) facebook).

Definition optimize_disabled (s : State) : bool :=
  negb (LoadingState_eqb (loadingState s) idle) || negb (truthy (title s)).

(** The edit bar (input and Apply button) is rendered when there is an
    image; Apply is [disabled={loadingState !== 'idle' || !editPrompt}]. *)
Definition edit_bar_rendered (s : State) : bool :=
  match generatedImage s with
  | Some _ => true
  | None => false
  end.

Definition apply_disabled (s : State) : bool :=
  negb (LoadingState_eqb (loadingState s) idle) || negb (truthy (editPrompt s)).

(* ------------------------------------------------------------------ *)
(** * The component over time

    Operations in flight are kept with what their continuation still
    needs: the state its closure captured and what its promise settles
    with.  An event is one thing the user or a promise does. *)

Inductive Pending :=
| AwaitingTitles (r : Outcome (list jsstring))
| AwaitingImage (cap : State) (r : Outcome (option jsstring))
| AwaitingEdit (r : Outcome (option jsstring)).

Record Studio := mkStudio {
  ui : State;
  pending : list Pending;
  world : World
}.

Inductive Event :=
| ChangeTitle (v : jsstring)
| ChangePrompt (v : jsstring)
| ChangeEditPrompt (v : jsstring)
| ChangeBrandColors (v : jsstring)
| SelectFormat (v : VideoFormat)
| SelectSize (v : ImageSize)
| PickSuggestion (i : nat)
| ChooseFile (files : option (list File)) (type : UploadType)
| ClearHeadshot
| ClearLogo
| ClickRemoveReference (idx : nat)
| ClickOptimize
| ClickGenerate
| ClickApply
| PressEnterInEdit
| Settle (i : nat).

Section Studio.

Variable JSON_parse_titles : jsstring -> Outcome (list jsstring).

(** A handler is called: it runs up to its [await]. *)
Definition call_handleTitleOptimize (c : Studio) : Studio :=
  let (s1, started) := handleTitleOptimize_begin (ui c) in
  if started then
    let (r, w1) := optimizeTitle JSON_parse_titles (title (ui c)) (world c) in
    mkStudio s1 (pending c ++ [AwaitingTitles r]) w1
  else mkStudio s1 (pending c) (world c).

Definition call_handleGenerate (c : Studio) : Studio :=
  let (s1, started) := handleGenerate_begin (ui c) in
  if started then
    let (r, w1) := handleGenerate_call (ui c) (world c) in
    mkStudio s1 (pending c ++ [AwaitingImage (ui c) r]) w1
  else mkStudio s1 (pending c) (world c).

Definition call_handleEdit (c : Studio) : Studio :=
  let (s1, started) := handleEdit_begin (ui c) in
  if started then
    let (r, w1) := handleEdit_call (ui c) (world c) in
    mkStudio s1 (pending c ++ [AwaitingEdit r]) w1
  else mkStudio s1 (pending c) (world c).

(** A promise settles: the rest of its handler runs on the state of the
    moment. *)
Definition resume (p : Pending) (cur : State) : M State :=
  match p with
  | AwaitingTitles r => ret (handleTitleOptimize_settle r cur)
  | AwaitingImage cap r => handleGenerate_settle cap r cur
  | AwaitingEdit r => handleEdit_settle r cur
  end.

Definition input (f : State -> State) (c : Studio) : Studio :=
  mkStudio (f (ui c)) (pending c) (world c).

Definition step (e : Event) (c : Studio) : option Studio :=
  let s := ui c in
  match e with
  | ChangeTitle v => Some (input (setTitle v) c)
  | ChangePrompt v => Some (input (setPrompt v) c)
  | ChangeEditPrompt v =>
      Some (if edit_bar_rendered s then input (setEditPrompt v) c else c)
  | ChangeBrandColors v => Some (input (setBrandColors v) c)
  | SelectFormat v => Some (input (setVideoFormat v) c)
  | SelectSize v => Some (input (setImageSize v) c)
  | PickSuggestion i =>
      Some (if optimize_rendered s then
              match nth_error (optimizedTitles s) i with
              | Some t => input (setTitle t) c
              | None => c
              end
            else c)
  | ChooseFile files type =>
      match handleFileUpload files type s with
      | Some s1 => Some (mkStudio s1 (pending c) (world c))
      | None => None
      end
  | ClearHeadshot =>
      Some (match headshot s with
            | Some _ => input (setHeadshot None) c
            | None => c
            end)
  | ClearLogo =>
      Some (match logo s with
            | Some _ => input (setLogo None) c
            | None => c
            end)
  | ClickRemoveReference idx =>
      Some (if idx <? List.length (referenceImages s)
            then input (removeReference idx) c else c)
  | ClickOptimize =>
      Some (if optimize_rendered s && negb (optimize_disabled s)
            then call_handleTitleOptimize c else c)
  | ClickGenerate =>
      Some (if generate_disabled s then c else call_handleGenerate c)
  | ClickApply =>
      Some (if edit_bar_rendered s && negb (apply_disabled s)
            then call_handleEdit c else c)
  | PressEnterInEdit =>
      Some (if edit_bar_rendered s then call_handleEdit c else c)
  | Settle i =>
      Some (match nth_error (pending c) i with
            | Some p =>
                let (s1, w1) := resume p s (world c) in
                mkStudio s1 (firstn i (pending c) ++ skipn (S i) (pending c)) w1
            | None => c
            end)
  end.

Fixpoint run (es : list Event) (c : Studio) : option Studio :=
  match es with
  | [] => Some c
  | e :: rest =>
      match step e c with
      | Some c1 => run rest c1
      | None => None
      end
  end.

End Studio.

(** The component as mounted. *)
Definition mounted (w : World) : Studio := mkStudio initialState [] w.

(** What an operation in flight shows in the loading state. *)
Definition shown_as (p : Pending) : LoadingState :=
  match p with
  | AwaitingTitles _ => optimizing_title
  | AwaitingImage _ _ => generating_image
  | AwaitingEdit _ => editing_image
  end.

(** One operation at most is in flight, and the loading state tells
    which. *)
Definition single_flight (c : Studio) : Prop :=
  match pending c with
  | [] => loadingState (ui c) = idle
  | [p] => loadingState (ui c) = shown_as p
  | _ :: _ :: _ => False
  end.

Definition is_enter (e : Event) : bool :=
  match e with
  | PressEnterInEdit => true
  | _ => false
  end.

Definition is_trigger (e : Event) : bool :=
  match e with
  | ClickOptimize | ClickGenerate | ClickApply | PressEnterInEdit => true
  | _ => false
  end.

(** A string without a comma. *)
Definition comma_free (s : jsstring) : bool :=
  forallb (fun c => negb (c =? comma)%N) s.

Definition is_text (p : ResponsePart) : bool :=
  match p with
  | RText _ => true
  | RInlineData _ => false
  end.

(** The label under which a format's template quotes the description. *)
Definition description_label (f : VideoFormat) : jsstring :=
  match f with
  | facebook => lit "Story/Context: "
  | _ => lit "Visual Description: "
  end.

(* ------------------------------------------------------------------ *)
(** * ApiKeySelector.tsx and App.tsx *)

(** [window.aistudio] as one call finds it: for each of its two methods,
    [None] when it is missing and otherwise what its promise settles
    with. *)
Record AiStudio := mkAiStudio {
  hasSelectedApiKey : option (Outcome bool);
  openSelectKey : option (Outcome unit)
}.

(** [hasKey] and [isLoading] of [ApiKeySelector], [apiKeySelected] of
    [App]. *)
Record Shell := mkShell {
  hasKey : bool;
  isLoading : bool;
  apiKeySelected : bool
}.

Definition shell_mounted : Shell := mkShell false true false.

Definition setHasKey (v : bool) (a : Shell) : Shell :=
  mkShell v (isLoading a) (apiKeySelected a).

Definition setIsLoading (v : bool) (a : Shell) : Shell :=
  mkShell (hasKey a) v (apiKeySelected a).

(** [onKeySelected={() => setApiKeySelected(true)}] *)
Definition onKeySelected (a : Shell) : Shell :=
  mkShell (hasKey a) (isLoading a) true.

Definition checkKey (aistudio : option AiStudio) (a : Shell) : Shell :=
  let a :=
    match aistudio with
    | Some api =>
        match hasSelectedApiKey api with
        | Some (Resolved selected) =>
            let a := setHasKey selected a in
            if selected then onKeySelected a else a
        | Some Rejected => a
        | None => a
        end
    | None => a
    end in
  setIsLoading false a.

Definition handleSelectKey (aistudio : option AiStudio) (a : Shell) : Shell :=
  match aistudio with
  | Some api =>
      match openSelectKey api with
      | Some (Resolved _) => onKeySelected (setHasKey true a)
      | Some Rejected => a
      | None => a
      end
  | None => a
  end.

(** What [ApiKeySelector] renders. *)
Inductive Screen := LoadingMessage | SetupCard | Nothing.

Definition ApiKeySelector_render (a : Shell) : Screen :=
  if isLoading a then LoadingMessage
  else if hasKey a then Nothing
  else SetupCard.

(** [{apiKeySelected && <CreatorStudio />}] *)
Definition CreatorStudio_rendered (a : Shell) : bool := apiKeySelected a.

(** A click on "Select API Key", which only the setup card offers. *)
Definition click_select_key (aistudio : option AiStudio) (a : Shell) : Shell :=
  match ApiKeySelector_render a with
  | SetupCard => handleSelectKey aistudio a
  | _ => a
  end.

(** The life of the shell: the check made on mount, then the clicks, each
    with [window.aistudio] as it is at that moment. *)
Definition shell_run (on_mount : option AiStudio) (clicks : list (option AiStudio)) : Shell :=
  fold_left (fun a aistudio => click_select_key aistudio a) clicks
            (checkKey on_mount shell_mounted).

(** The mount check finds a selected key. *)
Definition key_found (aistudio : option AiStudio) : bool :=
  match aistudio with
  | Some api =>
      match hasSelectedApiKey api with
      | Some (Resolved true) => true
      | _ => false
      end
  | None => false
  end.

(** The key dialog opens and closes without an error. *)
Definition dialog_completes (aistudio : option AiStudio) : bool :=
  match aistudio with
  | Some api =>
      match openSelectKey api with
      | Some (Resolved _) => true
      | _ => false
      end
  | None => false
  end.

(* ------------------------------------------------------------------ *)
(** * More sample data *)

Module Scenario.

Definition photo : File :=
  mkFile (lit "me.png") (Resolved (lit "data:image/png;base64,AAAABBBB")).

Definition unreadable : File := mkFile (lit "broken.png") Rejected.

Definition two_references : State :=
  setReferenceImages [mkUpload (lit "a.png") (lit "QUFB"); mkUpload (lit "b.png") (lit "QkJC")]
                     Sample.session.

(** A generation is in flight, with an image on screen and an edit typed. *)
Definition generating (w : World) : Studio :=
  mkStudio (setLoadingState generating_image Sample.session)
           [AwaitingImage Sample.session Rejected] w.

Definition in_ai_studio : option AiStudio :=
  Some (mkAiStudio (Some (Resolved false)) (Some (Resolved tt))).

End Scenario.

(* ------------------------------------------------------------------ *)
(** * Facts about strings *)

Section StringFacts.

Lemma trimStart_nil (s : jsstring) :
  trimStart s = [] <-> whitespace_only s = true.
Proof.
  unfold whitespace_only.
  induction s as [|c rest IH]; simpl.
  - tauto.
  - destruct (isWhiteSpace c); simpl.
    + exact IH.
    + split; discriminate.
Qed.

Lemma trimStart_head (s : jsstring) c rest :
  trimStart s = c :: rest -> isWhiteSpace c = false.
Proof.
  induction s as [|d s' IH]; simpl.
  - discriminate.
  - destruct (isWhiteSpace d) eqn:E.
    + exact IH.
    + intros [= <- _]. exact E.
Qed.

Lemma whitespace_only_rev (s : jsstring) :
  whitespace_only (rev s) = whitespace_only s.
Proof.
  unfold whitespace_only.
  induction s as [|c rest IH]; simpl.
  - reflexivity.
  - rewrite forallb_app, IH. simpl. rewrite andb_true_r. apply andb_comm.
Qed.

(** [!s.trim()] holds exactly of the strings that are empty or white
    space only. *)
Lemma trim_falsy (s : jsstring) :
  truthy (trim s) = false <-> whitespace_only s = true.
Proof.
  assert (F : forall t : jsstring, truthy t = false <-> t = []).
  { intros [|? ?]; simpl; split; congruence. }
  rewrite F. unfold trim, trimEnd. split.
  - intros H.
    apply (f_equal (@rev _)) in H. rewrite rev_involutive in H. simpl in H.
    apply trimStart_nil in H. rewrite whitespace_only_rev in H.
    destruct (trimStart s) as [|c rest] eqn:E.
    + apply trimStart_nil. exact E.
    + apply trimStart_head in E. simpl in H. rewrite E in H. discriminate.
  - intros H. apply trimStart_nil in H. rewrite H. reflexivity.
Qed.

Lemma trim_truthy (s : jsstring) :
  truthy (trim s) = true <-> whitespace_only s = false.
Proof.
  pose proof (trim_falsy s) as H.
  destruct (truthy (trim s)), (whitespace_only s); intuition congruence.
Qed.

Lemma lit_inj (a b : string) : lit a = lit b -> a = b.
Proof.
  unfold lit. intros H.
  rewrite <- (string_of_list_ascii_of_string a).
  rewrite <- (string_of_list_ascii_of_string b).
  f_equal.
  revert H. generalize (list_ascii_of_string a), (list_ascii_of_string b).
  intros l; induction l as [|x l IH]; intros [|y m]; simpl; try discriminate.
  - reflexivity.
  - intros [= Hxy Hlm]. f_equal.
    + rewrite <- (ascii_N_embedding x), <- (ascii_N_embedding y). now rewrite Hxy.
    + now apply IH.
Qed.

(** Two integers print alike only when they are equal. *)
Lemma Number_toString_inj (m n : Z) :
  Number_toString m = Number_toString n -> m = n.
Proof.
  unfold Number_toString. intros H. apply lit_inj in H.
  apply DecimalZ.to_int_inj.
  assert (E : Some (Z.to_int m) = Some (Z.to_int n)).
  { rewrite <- !NilEmpty.isi. now rewrite H. }
  now injection E.
Qed.

End StringFacts.

(* ------------------------------------------------------------------ *)
(** * The request builder *)

Section RequestBuilder.

Variables (p t : jsstring) (z : ImageSize) (f : VideoFormat).
Variables (h : option jsstring) (refs : list jsstring) (l b : option jsstring).

Lemma aspectRatio_ratio_of_format : aspectRatio f = ratio_of_format f.
Proof. destruct f; reflexivity. Qed.

Lemma optional_pair_push (o : option jsstring) (caption : jsstring) (acc : list Part) :
  (if truthy_opt o
   then push (push acc (InlineData image_png (value_of o))) (TextPart caption)
   else acc)
  = acc ++ optional_pair o caption.
Proof.
  destruct o as [[|c s]|]; simpl; unfold push;
    rewrite <- ?app_assoc, ?app_nil_r; reflexivity.
Qed.

(** The [forEach] loop appends the references, numbered from the index
    it starts at. *)
Lemma forEach_push_reference (rs : list jsstring) :
  forall (i : nat) (acc : list Part),
    forEach push_reference rs i acc
    = acc ++ flat_map (fun nr => captioned (snd nr) (reference_caption (fst nr)))
                      (combine (seq (S i) (List.length rs)) rs).
Proof.
  induction rs as [|r rest IH]; intros i acc; simpl.
  - now rewrite app_nil_r.
  - rewrite IH. unfold push_reference, push, reference_caption.
    rewrite Nat.add_1_r, <- !app_assoc. reflexivity.
Qed.

Lemma subject_caption_term :
  lit "Use the person in this image as the main subject in the "
  ++ subjectTerm f
  ++ lit ". Integrate them naturally matching the lighting and style."
  = subject_caption f.
Proof. destruct f; reflexivity. Qed.

Lemma parts_sequence :
  parts p t f h refs l b
  = TextPart (textPrompt p t f b) :: attachment_sequence f h l refs.
Proof.
  unfold parts, attachment_sequence, numbered_references. cbv zeta.
  rewrite forEach_push_reference, subject_caption_term.
  rewrite (optional_pair_push l), (optional_pair_push h).
  fold logo_caption. simpl. now rewrite <- !app_assoc.
Qed.

End RequestBuilder.

(** C4: the aspect ratio of the built request is the one of the output
    format (long-form 16:9, shorts 9:16, facebook 1:1), whatever the
    prompt, the title, the quality tier, the images and the colours. *)
Theorem aspectRatio_depends_on_format_only :
  forall (f : VideoFormat)
         (p p' t t' : jsstring) (z z' : ImageSize)
         (h h' : option jsstring) (refs refs' : list jsstring)
         (l l' b b' : option jsstring),
    request_aspectRatio (generateThumbnail_request p t z f h refs l b)
    = Some (ratio_of_format f)
    /\ request_aspectRatio (generateThumbnail_request p t z f h refs l b)
       = request_aspectRatio (generateThumbnail_request p' t' z' f h' refs' l' b').
Proof.
  intros. unfold generateThumbnail_request, request_aspectRatio. simpl.
  now rewrite aspectRatio_ratio_of_format.
Qed.

(** C5: after the prompt text the built request holds the subject image
    and its caption when present, then the logo and its caption when
    present, then every reference in input order with the caption of its
    1-based position; leaving the subject or the logo out removes its
    pair and nothing else. *)
Theorem attachments_in_order :
  forall (p t : jsstring) (z : ImageSize) (f : VideoFormat)
         (h : option jsstring) (refs : list jsstring) (l b : option jsstring),
    let request := generateThumbnail_request p t z f in
    attachments (request h refs l b) = attachment_sequence f h l refs
    /\ attachments (request h refs l b)
       = optional_pair h (subject_caption f) ++ attachments (request None refs l b)
    /\ attachments (request None refs l b)
       = optional_pair l logo_caption ++ attachments (request None refs None b)
    /\ attachments (request None refs None b) = numbered_references refs.
Proof.
  intros. unfold request, generateThumbnail_request, attachments. simpl.
  rewrite !parts_sequence. unfold attachment_sequence. simpl. auto.
Qed.

(** C6: two calls of [generateThumbnail] on the same inputs send the same
    request, prompt text and attachments alike, although the clock has
    moved and the model may have answered differently in between; so do
    calls made in two different worlds. *)
Theorem generateThumbnail_request_repeatable :
  forall (p t : jsstring) (z : ImageSize) (f : VideoFormat)
         (h : option jsstring) (refs : list jsstring) (l b : option jsstring)
         (w w' : World),
    let call := generateThumbnail p t z f h refs l b in
    let q := generateThumbnail_request p t z f h refs l b in
    sent (snd ((_ <- call ;; _ <- Date_now ;; call) w)) = sent w ++ [q; q]
    /\ sent (snd (call w')) = sent w' ++ [q]
    /\ promptText q = Some (textPrompt p t f b)
    /\ attachments q = attachment_sequence f h l refs.
Proof.
  intros. repeat split.
  - unfold call, generateThumbnail, bind, generateContent, Date_now, ret. simpl.
    now rewrite <- app_assoc.
  - unfold q. unfold generateThumbnail_request, promptText. simpl.
    now rewrite parts_sequence.
  - unfold q. unfold generateThumbnail_request, attachments. simpl.
    now rewrite parts_sequence.
Qed.

(** The scenario of a subject, a logo and two references. *)
Example attachments_subject_logo_two_references :
  attachments (generateThumbnail_request (lit "sunset over mountains") [] Size1K long_form
                 (Some (lit "SUBJ")) [lit "REF1"; lit "REF2"] (Some (lit "LOGO")) None)
  = [ InlineData image_png (lit "SUBJ");
      TextPart (lit "Use the person in this image as the main subject in the thumbnail. Integrate them naturally matching the lighting and style.");
      InlineData image_png (lit "LOGO");
      TextPart (lit "Integrate this logo into the image. Place it clearly (e.g. corner or branding area) without obstructing the main subject.");
      InlineData image_png (lit "REF1");
      TextPart (lit "Reference style/composition from image #1.");
      InlineData image_png (lit "REF2");
      TextPart (lit "Reference style/composition from image #2.") ].
Proof. vm_compute. reflexivity. Qed.

(* ------------------------------------------------------------------ *)
(** * The session controller *)

Arguments lit : simpl never.

Ltac run_world :=
  unfold bind, ret, generateContent, Date_now; simpl.

Section Generate.

Variables (s : State) (w : World).

Lemma handleGenerate_begin_blank :
  whitespace_only (prompt s) = true ->
  handleGenerate_begin s = (setError (Some msg_prompt_missing) s, false).
Proof.
  intros H. unfold handleGenerate_begin.
  now rewrite (proj2 (trim_falsy _) H).
Qed.

Lemma handleGenerate_begin_started :
  whitespace_only (prompt s) = false ->
  handleGenerate_begin s
  = (setError None (setLoadingState generating_image s), true).
Proof.
  intros H. unfold handleGenerate_begin.
  now rewrite (proj2 (trim_truthy _) H).
Qed.

Lemma handleGenerate_call_world :
  let w1 := snd (handleGenerate_call s w) in
  clock w1 = clock w /\ reads w1 = reads w /\ backend w1 = backend w
  /\ exists q, sent w1 = sent w ++ [q].
Proof.
  unfold handleGenerate_call, generateThumbnail. run_world. eauto.
Qed.

Lemma handleGenerate_started :
  whitespace_only (prompt s) = false ->
  handleGenerate s w
  = handleGenerate_settle s (fst (handleGenerate_call s w))
                          (setError None (setLoadingState generating_image s))
                          (snd (handleGenerate_call s w)).
Proof.
  intros H. unfold handleGenerate.
  rewrite (handleGenerate_begin_started H). unfold bind.
  now destruct (handleGenerate_call s w).
Qed.

Variables (cap cur : State).

Lemma handleGenerate_settle_image (B : jsstring) :
  truthy B = true ->
  handleGenerate_settle cap (Resolved (Some B)) cur w
  = (setLoadingState idle
       (setGeneratedImage
          (Some (mkGeneratedImage (Number_toString (clock w (reads w))) B image_png
                                  (prompt cap) (clock w (S (reads w)))
                                  (videoFormat cap)))
          cur),
     mkWorld (sent w) (backend w) (S (S (reads w))) (clock w)).
Proof.
  intros H. unfold handleGenerate_settle. simpl truthy_opt. rewrite H.
  reflexivity.
Qed.

Lemma handleGenerate_settle_null :
  handleGenerate_settle cap (Resolved None) cur w
  = (setLoadingState idle (setError (Some msg_no_image) cur), w).
Proof. reflexivity. Qed.

Lemma handleGenerate_settle_rejected :
  handleGenerate_settle cap Rejected cur w
  = (setLoadingState idle (setError (Some msg_generation_failed) cur), w).
Proof. reflexivity. Qed.

Lemma handleGenerate_settle_idle (r : Outcome (option jsstring)) :
  loadingState (fst (handleGenerate_settle cap r cur w)) = idle.
Proof.
  destruct r as [[[|c B]|]|]; reflexivity.
Qed.

End Generate.

Section TitleAndEdit.

Variable JSON_parse_titles : jsstring -> Outcome (list jsstring).
Variables (s : State) (w : World).

Lemma handleTitleOptimize_settle_idle (r : Outcome (list jsstring)) (cur : State) :
  loadingState (handleTitleOptimize_settle r cur) = idle.
Proof. destruct r; reflexivity. Qed.

Lemma handleTitleOptimize_idle :
  snd (handleTitleOptimize_begin s) = true ->
  loadingState (fst (handleTitleOptimize JSON_parse_titles s w)) = idle.
Proof.
  unfold handleTitleOptimize.
  destruct (handleTitleOptimize_begin s) as [s1 started]. simpl.
  intros ->. unfold bind, ret.
  destruct (optimizeTitle JSON_parse_titles (title s) w) as [r w1].
  apply handleTitleOptimize_settle_idle.
Qed.

Lemma handleEdit_settle_idle (r : Outcome (option jsstring)) (cur : State) (w1 : World) :
  loadingState (fst (handleEdit_settle r cur w1)) = idle.
Proof.
  destruct r as [[[|c B]|]|]; try reflexivity.
  unfold handleEdit_settle. simpl truthy_opt. cbv iota.
  destruct (generatedImage cur); reflexivity.
Qed.

Lemma handleEdit_idle :
  snd (handleEdit_begin s) = true ->
  loadingState (fst (handleEdit s w)) = idle.
Proof.
  unfold handleEdit.
  destruct (handleEdit_begin s) as [s1 started]. simpl.
  intros ->. unfold bind.
  destruct (handleEdit_call s w) as [r w1]. cbv beta iota.
  apply handleEdit_settle_idle.
Qed.

Lemma handleGenerate_idle :
  snd (handleGenerate_begin s) = true ->
  loadingState (fst (handleGenerate s w)) = idle.
Proof.
  unfold handleGenerate.
  destruct (handleGenerate_begin s) as [s1 started]. simpl.
  intros ->. unfold bind.
  destruct (handleGenerate_call s w) as [r w1]. cbv beta iota.
  apply handleGenerate_settle_idle.
Qed.

Lemma handleEdit_begin_started (g : GeneratedImage) :
  generatedImage s = Some g ->
  whitespace_only (editPrompt s) = false ->
  handleEdit_begin s = (setError None (setLoadingState editing_image s), true).
Proof.
  intros Hg H. unfold handleEdit_begin.
  now rewrite Hg, (proj2 (trim_truthy _) H).
Qed.

End TitleAndEdit.

(** C3: with an empty or white-space-only prompt [handleGenerate] puts
    "Please enter a description or story for the image." in the error
    slot and returns: no request is sent, and the loading state and the
    image are the ones it found. *)
Theorem blank_prompt_rejected (s : State) (w : World) :
  whitespace_only (prompt s) = true ->
  let done := handleGenerate s w in
  error (fst done) = Some (lit "Please enter a description or story for the image.")
  /\ sent (snd done) = sent w
  /\ loadingState (fst done) = loadingState s
  /\ generatedImage (fst done) = generatedImage s
  /\ done = (setError (Some msg_prompt_missing) s, w).
Proof.
  intros H done. unfold done, handleGenerate.
  rewrite (handleGenerate_begin_blank s H). unfold ret. simpl. auto.
Qed.

Lemma blank_prompt_rejected_witness :
  let s := Sample.blank_session in
  let w := Sample.world (Sample.answering [RInlineData (Some Sample.bytes_B)]) in
  whitespace_only (prompt s) = true
  /\ error (fst (handleGenerate s w)) = Some msg_prompt_missing
  /\ sent (snd (handleGenerate s w)) = [].
Proof.
  intros s w.
  destruct (blank_prompt_rejected s w eq_refl) as (He & Hs & _).
  split; [reflexivity | split; [exact He | exact Hs]].
Defined.

(** C9: while the loading state is not idle the Generate button is
    disabled, so a click on it changes neither the loading state, nor the
    image, nor the error, and sends nothing. *)
Theorem click_generate_ignored_while_busy (s : State) (w : World) :
  LoadingState_eqb (loadingState s) idle = false ->
  let done := click_generate s w in
  loadingState (fst done) = loadingState s
  /\ generatedImage (fst done) = generatedImage s
  /\ error (fst done) = error s
  /\ sent (snd done) = sent w
  /\ done = (s, w).
Proof.
  intros H done. unfold done, click_generate, generate_disabled.
  rewrite H. simpl. unfold ret. simpl. auto.
Qed.

Lemma click_generate_ignored_while_busy_witness :
  let s := Sample.busy_session in
  let w := Sample.world (Sample.answering [RInlineData (Some Sample.bytes_B)]) in
  LoadingState_eqb (loadingState s) idle = false
  /\ click_generate s w = (s, w).
Proof.
  intros s w.
  destruct (click_generate_ignored_while_busy s w eq_refl) as (_ & _ & _ & _ & H).
  split; [reflexivity | exact H].
Defined.

(** C8: whichever of the three operations has started, and whatever the
    service does (an image, titles, nothing, an error), the loading state
    is idle when its handler is done; the code after the [await] ends in
    idle from any state the component has reached meanwhile. *)
Theorem idle_after_every_operation
    (JSON_parse_titles : jsstring -> Outcome (list jsstring))
    (op : Operation) (s : State) (w : World) :
  snd (begins op s) = true ->
  loadingState (fst (handler JSON_parse_titles op s w)) = idle
  /\ (forall r cur, loadingState (handleTitleOptimize_settle r cur) = idle)
  /\ (forall cap r cur w1, loadingState (fst (handleGenerate_settle cap r cur w1)) = idle)
  /\ (forall r cur w1, loadingState (fst (handleEdit_settle r cur w1)) = idle).
Proof.
  intros H. split; [| split; [| split]].
  - destruct op; simpl in *.
    + now apply handleTitleOptimize_idle.
    + now apply handleGenerate_idle.
    + now apply handleEdit_idle.
  - apply handleTitleOptimize_settle_idle.
  - intros. apply handleGenerate_settle_idle.
  - intros. apply handleEdit_settle_idle.
Qed.

Lemma idle_after_every_operation_witness :
  let s := Sample.session in
  let w := Sample.world Sample.failing in
  snd (begins ImageGeneration s) = true
  /\ loadingState (fst (handler Sample.no_titles ImageGeneration s w)) = idle
  /\ snd (begins TitleOptimization s) = true
  /\ loadingState (fst (handler Sample.no_titles TitleOptimization s w)) = idle
  /\ snd (begins ImageEdit s) = true
  /\ loadingState (fst (handler Sample.no_titles ImageEdit s w)) = idle.
Proof.
  intros s w.
  pose proof (idle_after_every_operation Sample.no_titles ImageGeneration s w eq_refl) as (Hg & _).
  pose proof (idle_after_every_operation Sample.no_titles TitleOptimization s w eq_refl) as (Ht & _).
  pose proof (idle_after_every_operation Sample.no_titles ImageEdit s w eq_refl) as (He & _).
  split; [reflexivity |]. split; [exact Hg |].
  split; [reflexivity |]. split; [exact Ht |].
  split; [reflexivity | exact He].
Defined.

(** C10: when the generation call raises or returns null, the image held
    before is the image held after; the state is the one the handler
    found, with a new error message and an idle loading state. *)
Theorem failed_generation_keeps_image (s : State) (w : World) :
  whitespace_only (prompt s) = false ->
  fst (handleGenerate_call s w) = Rejected
  \/ fst (handleGenerate_call s w) = Resolved None ->
  let done := fst (handleGenerate s w) in
  generatedImage done = generatedImage s
  /\ done = setLoadingState idle (setError (error done) s)
  /\ match fst (handleGenerate_call s w) with
     | Rejected => error done = Some msg_generation_failed
     | Resolved None => error done = Some msg_no_image
     | Resolved (Some _) => True
     end
  /\ (forall cap cur w1,
        generatedImage (fst (handleGenerate_settle cap Rejected cur w1))
        = generatedImage cur
        /\ generatedImage (fst (handleGenerate_settle cap (Resolved None) cur w1))
           = generatedImage cur).
Proof.
  intros Hp Hr done. unfold done.
  rewrite (handleGenerate_started s w Hp).
  destruct Hr as [-> | ->].
  - rewrite handleGenerate_settle_rejected. simpl. auto.
  - rewrite handleGenerate_settle_null. simpl. auto.
Qed.

Lemma failed_generation_keeps_image_witness :
  let s := Sample.session in
  let w := Sample.world Sample.failing in
  whitespace_only (prompt s) = false
  /\ fst (handleGenerate_call s w) = Rejected
  /\ generatedImage (fst (handleGenerate s w)) = Some Sample.old_image
  /\ error (fst (handleGenerate s w)) = Some msg_generation_failed.
Proof.
  intros s w.
  destruct (failed_generation_keeps_image s w eq_refl (or_introl eq_refl))
    as (Hi & _ & He & _).
  split; [reflexivity |]. split; [reflexivity |].
  split; [exact Hi | exact He].
Defined.

(** C7, as amended: when the prompt is not blank and the generation call
    returns a non-empty image string B, the session afterwards holds one
    image built from B alone: its data is B, its prompt and format are the
    ones of the state the request was made from, and nothing of the image
    held before survives, whatever the component's state has become
    meanwhile.  Its id is the clock reading taken on completion, printed:
    it is the id of an image stamped at the reading [t] exactly when [t]
    is that reading, so it is new unless the clock shows again the
    reading the previous id was printed from. *)
Theorem successful_generation_replaces_image (s : State) (w : World) (B : jsstring) :
  whitespace_only (prompt s) = false ->
  fst (handleGenerate_call s w) = Resolved (Some B) ->
  truthy B = true ->
  let done := fst (handleGenerate s w) in
  let now := clock w (reads w) in
  let fresh := mkGeneratedImage (Number_toString now) B image_png (prompt s)
                                (clock w (S (reads w))) (videoFormat s) in
  generatedImage done = Some fresh
  /\ loadingState done = idle
  /\ error done = None
  /\ (forall t, gi_id fresh = Number_toString t <-> t = now)
  /\ (forall old t, generatedImage s = Some old -> gi_id old = Number_toString t ->
                    (gi_id fresh = gi_id old <-> t = now))
  /\ (forall cur, generatedImage (fst (handleGenerate_settle s (Resolved (Some B)) cur w))
                  = Some fresh).
Proof.
  intros Hp Hr HB done now fresh. unfold done.
  rewrite (handleGenerate_started s w Hp), Hr.
  rewrite (handleGenerate_settle_image _ s _ B HB).
  destruct (handleGenerate_call_world s w) as (Hc & Hn & _).
  cbv zeta in Hc, Hn. rewrite Hc, Hn. simpl.
  assert (Hid : forall t, gi_id fresh = Number_toString t <-> t = now).
  { intros t. unfold fresh. simpl. split.
    - intros E. apply Number_toString_inj in E. congruence.
    - now intros ->. }
  split; [reflexivity |]. split; [reflexivity |]. split; [reflexivity |].
  split; [exact Hid |]. split.
  - intros old t _ Hold. rewrite Hold. apply Hid.
  - intros cur. now rewrite (handleGenerate_settle_image w s cur B HB).
Qed.

Lemma successful_generation_replaces_image_witness :
  let s := Sample.session in
  let w := Sample.world (Sample.answering [RText (lit "Here you go"); RInlineData (Some Sample.bytes_B)]) in
  whitespace_only (prompt s) = false
  /\ fst (handleGenerate_call s w) = Resolved (Some Sample.bytes_B)
  /\ truthy Sample.bytes_B = true
  /\ generatedImage (fst (handleGenerate s w))
     = Some (mkGeneratedImage (lit "1700000000000") Sample.bytes_B image_png
                              (lit "sunset over mountains") 1700000000001 shorts).
Proof.
  intros s w.
  destruct (successful_generation_replaces_image s w Sample.bytes_B eq_refl eq_refl eq_refl)
    as (H & _).
  split; [reflexivity |]. split; [reflexivity |]. split; [reflexivity |].
  exact H.
Defined.

(** C7, as first stated, fails in two ways.  When the non-null result is
    the empty string, the call succeeds with [""], yet [if (resultBase64)]
    takes the other branch: the image held before stays and "No image
    generated." is shown.  And the id is [Date.now().toString()], which
    is not new when the clock shows the same reading again: of two
    generations in a row under a clock that stands still, the second
    image replaces the first under the very same id. *)
Lemma empty_result_or_still_clock :
  (let s := Sample.session in
   let w := Sample.world (Sample.answering [RInlineData (Some [])]) in
   whitespace_only (prompt s) = false
   /\ fst (handleGenerate_call s w) = Resolved (Some [])
   /\ generatedImage (fst (handleGenerate s w)) = Some Sample.old_image
   /\ error (fst (handleGenerate s w)) = Some msg_no_image
   /\ ~ (exists g, generatedImage (fst (handleGenerate s w)) = Some g /\ gi_data g = []))
  /\
  (let s := setGeneratedImage None Sample.session in
   let w := mkWorld [] (Sample.answering [RInlineData (Some Sample.bytes_B)]) 0
                    (fun _ => 1700000000000%Z) in
   let first := handleGenerate s w in
   let second := handleGenerate (fst first) (snd first) in
   whitespace_only (prompt (fst first)) = false
   /\ fst (handleGenerate_call (fst first) (snd first)) = Resolved (Some Sample.bytes_B)
   /\ truthy Sample.bytes_B = true
   /\ generatedImage (fst first)
      = Some (mkGeneratedImage (lit "1700000000000") Sample.bytes_B image_png
                               (lit "sunset over mountains") 1700000000000 shorts)
   /\ generatedImage (fst second) = generatedImage (fst first)
   /\ option_map gi_id (generatedImage (fst second))
      = option_map gi_id (generatedImage (fst first))).
Proof.
  split.
  - intros s w.
    split; [reflexivity |]. split; [reflexivity |]. split; [reflexivity |].
    split; [reflexivity |].
    intros (g & Hg & Hd).
    assert (E : Some g = Some Sample.old_image) by (rewrite <- Hg; reflexivity).
    injection E as ->. discriminate Hd.
  - intros s w first second.
    split; [reflexivity |]. split; [reflexivity |]. split; [reflexivity |].
    split; [reflexivity |]. split; reflexivity.
Qed.

(** C2, as amended: an operation that starts (its guard passed) clears the
    error slot before it calls the service. *)
Theorem error_cleared_when_operation_starts (op : Operation) (s : State) :
  snd (begins op s) = true ->
  error (fst (begins op s)) = None.
Proof.
  destruct op; simpl.
  - unfold handleTitleOptimize_begin.
    destruct (negb (truthy (trim (title s)))); [discriminate | reflexivity].
  - unfold handleGenerate_begin.
    destruct (negb (truthy (trim (prompt s)))); [discriminate | reflexivity].
  - unfold handleEdit_begin.
    destruct (generatedImage s); [| discriminate].
    destruct (negb (truthy (trim (editPrompt s)))); [discriminate | reflexivity].
Qed.

Lemma error_cleared_when_operation_starts_witness :
  snd (begins ImageEdit Sample.session) = true
  /\ error (fst (begins ImageEdit Sample.session)) = None.
Proof.
  split; [reflexivity |].
  exact (error_cleared_when_operation_starts ImageEdit Sample.session eq_refl).
Defined.

(** C2, as first stated, fails: a session showing an old error loses it
    at the start of each of the three operations. *)
Lemma stale_error_lost_at_start :
  let s := Sample.session in
  error s = Some (lit "No image generated.")
  /\ snd (handleTitleOptimize_begin s) = true
  /\ error (fst (handleTitleOptimize_begin s)) = None
  /\ snd (handleGenerate_begin s) = true
  /\ error (fst (handleGenerate_begin s)) = None
  /\ snd (handleEdit_begin s) = true
  /\ error (fst (handleEdit_begin s)) = None
  /\ error (fst (handleGenerate_begin s)) <> error s.
Proof.
  intros s. repeat (split; [reflexivity |]). discriminate.
Qed.

(** C1: what [handleEdit] does when [editThumbnail] returns null: the
    image and the edit instruction are kept and the loading state is idle
    again, but the error slot, cleared at the start, stays empty; "Editing
    failed." is not shown. *)
Theorem edit_null_result_shows_no_error (s : State) (w : World) (g : GeneratedImage) :
  generatedImage s = Some g ->
  whitespace_only (editPrompt s) = false ->
  fst (handleEdit_call s w) = Resolved None ->
  let done := fst (handleEdit s w) in
  error done = None
  /\ error done <> Some (lit "Editing failed.")
  /\ generatedImage done = Some g
  /\ editPrompt done = editPrompt s
  /\ loadingState done = idle.
Proof.
  intros Hg Hp Hr done. unfold done, handleEdit.
  rewrite (handleEdit_begin_started s g Hg Hp). unfold bind.
  destruct (handleEdit_call s w) as [r w1]. simpl in Hr. subst r.
  simpl. rewrite Hg.
  split; [reflexivity |]. split; [discriminate |]. auto.
Qed.

Lemma edit_null_result_shows_no_error_witness :
  let s := Sample.session in
  let w := Sample.world (Sample.answering [RText (lit "I cannot edit this image.")]) in
  generatedImage s = Some Sample.old_image
  /\ whitespace_only (editPrompt s) = false
  /\ fst (handleEdit_call s w) = Resolved None
  /\ error (fst (handleEdit s w)) = None
  /\ generatedImage (fst (handleEdit s w)) = Some Sample.old_image
  /\ editPrompt (fst (handleEdit s w)) = lit "add retro filter".
Proof.
  intros s w.
  destruct (edit_null_result_shows_no_error s w Sample.old_image eq_refl eq_refl eq_refl)
    as (He & _ & Hi & Hp & _).
  split; [reflexivity |]. split; [reflexivity |]. split; [reflexivity |].
  split; [exact He |]. split; [exact Hi | exact Hp].
Defined.

(** [handleGenerate] itself does not look at the loading state: the gate
    of the Generate button is what keeps a busy session from sending a
    second request. *)
Remark handleGenerate_has_no_idle_guard :
  let w := Sample.world Sample.failing in
  loadingState Sample.busy_session = editing_image
  /\ List.length (sent (snd (handleGenerate Sample.busy_session w))) = 1
  /\ sent (snd (click_generate Sample.busy_session w)) = [].
Proof. repeat split. Qed.

(** With the empty prompt the Generate button is disabled as well, so the
    message for a missing prompt is reached from the page by a prompt of
    white space only. *)
Remark click_generate_empty_prompt (s : State) (w : World) :
  prompt s = [] -> click_generate s w = (s, w).
Proof.
  intros H. unfold click_generate, generate_disabled. rewrite H. simpl.
  now rewrite orb_true_r.
Qed.

(** On a null result [handleGenerate] does report: the branch that
    [handleEdit] lacks. *)
Remark generate_null_result_shows_error (cap cur : State) (w : World) :
  error (fst (handleGenerate_settle cap (Resolved None) cur w)) = Some msg_no_image
  /\ error (fst (handleEdit_settle (Resolved None) cur w)) = error cur
  /\ error (fst (handleEdit_settle Rejected cur w)) = Some msg_editing_failed.
Proof. repeat split. Qed.

(* ------------------------------------------------------------------ *)
(** * References: removing and uploading *)

Section References.

Context {A : Type}.

Lemma filter_indexed_drop (xs : list A) :
  forall (k i : nat),
    filter_indexed (fun _ j => negb (j =? i + k)) xs i
    = firstn k xs ++ skipn (S k) xs.
Proof.
  induction xs as [|x rest IH]; intros k i; simpl.
  - now destruct k.
  - destruct k as [|k]; simpl.
    + rewrite Nat.add_0_r, Nat.eqb_refl. simpl.
      clear IH. revert i.
      assert (G : forall (l : list A) (i j : nat), i < j ->
                  filter_indexed (fun _ m => negb (m =? i)) l j = l).
      { induction l as [|y l IHl]; intros i j Hij; simpl.
        - reflexivity.
        - destruct (Nat.eqb_spec j i); [lia |]. simpl. f_equal.
          apply IHl. lia. }
      intros i. apply G. lia.
    + destruct (Nat.eqb_spec i (i + S k)); [lia |]. simpl. f_equal.
      replace (i + S k) with (S i + k) by lia. apply IH.
Qed.

Lemma filter_indexed_keep (xs : list A) :
  forall (index i : nat),
    List.length xs + i <= index ->
    filter_indexed (fun _ j => negb (j =? index)) xs i = xs.
Proof.
  induction xs as [|x rest IH]; intros index i H; simpl in *.
  - reflexivity.
  - destruct (Nat.eqb_spec i index); [lia |]. simpl. f_equal.
    apply IH. lia.
Qed.

End References.

Lemma setReferenceImages_same (s : State) :
  setReferenceImages (referenceImages s) s = s.
Proof. now destruct s. Qed.

(** X1: removing the reference at a position of the list takes out that
    entry and no other: the entries before it stay where they are, the
    entries after it move up by one, and the list is one shorter. *)
Theorem removeReference_in_range (index : nat) (s : State) :
  index < List.length (referenceImages s) ->
  let refs := referenceImages s in
  let refs' := referenceImages (removeReference index s) in
  refs' = firstn index refs ++ skipn (S index) refs
  /\ S (List.length refs') = List.length refs
  /\ (forall j, nth_error refs' j
                = if j <? index then nth_error refs j else nth_error refs (S j)).
Proof.
  intros H refs refs'.
  assert (E : refs' = firstn index refs ++ skipn (S index) refs).
  { unfold refs', removeReference. simpl.
    apply (filter_indexed_drop (referenceImages s) index 0). }
  split; [exact E |]. split.
  - rewrite E, length_app, length_firstn, length_skipn. fold refs in H. lia.
  - intros j. rewrite E. fold refs in H.
    destruct (Nat.ltb_spec j index) as [Hj | Hj].
    + rewrite nth_error_app1 by (rewrite length_firstn; lia).
      rewrite nth_error_firstn.
      destruct (Nat.ltb_spec j index); [reflexivity | lia].
    + rewrite nth_error_app2 by (rewrite length_firstn; lia).
      rewrite length_firstn, nth_error_skipn.
      f_equal. lia.
Qed.

Lemma removeReference_in_range_witness :
  map up_name (referenceImages (removeReference 0 Scenario.two_references))
  = [lit "b.png"].
Proof.
  destruct (removeReference_in_range 0 Scenario.two_references) as (E & _).
  - simpl. lia.
  - rewrite E. reflexivity.
Defined.

(** X2: removing at a position the list does not have changes nothing. *)
Theorem removeReference_out_of_range (index : nat) (s : State) :
  List.length (referenceImages s) <= index ->
  removeReference index s = s.
Proof.
  intros H. unfold removeReference.
  rewrite filter_indexed_keep by lia.
  apply setReferenceImages_same.
Qed.

Lemma removeReference_out_of_range_witness :
  removeReference 2 Scenario.two_references = Scenario.two_references.
Proof.
  apply (removeReference_out_of_range 2 Scenario.two_references). simpl. lia.
Defined.

(* ------------------------------------------------------------------ *)
(** * Reading a file *)

Lemma split_comma_nonempty (s : jsstring) : split_comma s <> [].
Proof.
  induction s as [|c rest IH]; simpl.
  - discriminate.
  - destruct (c =? comma)%N; [discriminate |].
    destruct (split_comma rest); [contradiction | discriminate].
Qed.

Lemma split_comma_free (s : jsstring) :
  comma_free s = true -> split_comma s = [s].
Proof.
  induction s as [|c rest IH]; simpl.
  - reflexivity.
  - intros H. apply andb_prop in H as [Hc Hrest].
    apply negb_true_iff in Hc. rewrite Hc, (IH Hrest). reflexivity.
Qed.

Lemma split_comma_prefix (prefix rest : jsstring) :
  comma_free prefix = true ->
  split_comma (prefix ++ comma :: rest) = prefix :: split_comma rest.
Proof.
  induction prefix as [|c p IH]; simpl.
  - intros _. reflexivity.
  - intros H. apply andb_prop in H as [Hc Hp].
    apply negb_true_iff in Hc. rewrite Hc, (IH Hp). reflexivity.
Qed.

Lemma fileToBase64_data_url (prefix payload : jsstring) :
  comma_free prefix = true ->
  comma_free payload = true ->
  fileToBase64 (Resolved (prefix ++ comma :: payload)) = Resolved (Some payload).
Proof.
  intros Hp Hq. unfold fileToBase64.
  rewrite split_comma_prefix by assumption.
  now rewrite split_comma_free by assumption.
Qed.

(** X3: [fileToBase64] resolves with what stands between the first and
    the second comma of the data URL, to its end when there is no second
    one, and with [undefined] when the URL has no comma at all. *)
Theorem fileToBase64_takes_second_piece (prefix payload rest : jsstring) :
  comma_free prefix = true ->
  comma_free payload = true ->
  fileToBase64 (Resolved (prefix ++ comma :: payload)) = Resolved (Some payload)
  /\ fileToBase64 (Resolved (prefix ++ comma :: payload ++ comma :: rest))
     = Resolved (Some payload)
  /\ fileToBase64 (Resolved prefix) = Resolved None
  /\ fileToBase64 Rejected = Rejected.
Proof.
  intros Hp Hq. unfold fileToBase64.
  split; [| split; [| split]].
  - rewrite split_comma_prefix by assumption.
    now rewrite split_comma_free by assumption.
  - rewrite split_comma_prefix by assumption.
    now rewrite split_comma_prefix by assumption.
  - now rewrite split_comma_free by assumption.
  - reflexivity.
Qed.

Lemma fileToBase64_takes_second_piece_witness :
  fileToBase64 (Resolved (lit "data:image/png;base64,AAAABBBB"))
  = Resolved (Some (lit "AAAABBBB"))
  /\ fileToBase64 (Resolved (lit "data:")) = Resolved None.
Proof.
  destruct (fileToBase64_takes_second_piece
              (lit "data:image/png;base64") (lit "AAAABBBB") [] eq_refl eq_refl)
    as (H1 & _).
  destruct (fileToBase64_takes_second_piece (lit "data:") [] [] eq_refl eq_refl)
    as (_ & _ & H3 & _).
  split; [exact H1 | exact H3].
Defined.

(* ------------------------------------------------------------------ *)
(** * Uploads *)

Lemma numbered_references_snoc (refs : list jsstring) (r : jsstring) :
  numbered_references (refs ++ [r])
  = numbered_references refs
    ++ captioned r (reference_caption (S (List.length refs))).
Proof.
  unfold numbered_references.
  rewrite length_app. simpl List.length. rewrite Nat.add_1_r, seq_S.
  assert (G : forall (ns : list nat) (rs : list jsstring) n,
             List.length ns = List.length rs ->
             combine (ns ++ [n]) (rs ++ [r]) = combine ns rs ++ [(n, r)]).
  { induction ns as [|m ns IH]; intros [|x rs] n H; simpl in *; try discriminate.
    - reflexivity.
    - f_equal. apply IH. now injection H. }
  rewrite G by now rewrite length_seq.
  rewrite flat_map_app. simpl. rewrite ?app_nil_r. reflexivity.
Qed.

(** X4: a reference image read from a data URL is put behind the
    references already there; in the next generation request every
    earlier attachment is as before and the new image comes last, with
    the number of its place. *)
Theorem upload_reference_appends
    (file : File) (others : list File) (cur : State) (prefix payload : jsstring) :
  file_read file = Resolved (prefix ++ comma :: payload) ->
  comma_free prefix = true ->
  comma_free payload = true ->
  let s' := setReferenceImages
              (referenceImages cur ++ [mkUpload (file_name file) payload]) cur in
  handleFileUpload (Some (file :: others)) as_reference cur = Some s'
  /\ attachments (handleGenerate_request s')
     = attachments (handleGenerate_request cur)
       ++ captioned payload
            (reference_caption (S (List.length (referenceImages cur)))).
Proof.
  intros Hread Hp Hq s'. split.
  - unfold handleFileUpload. rewrite Hread.
    rewrite (fileToBase64_data_url prefix payload Hp Hq).
    reflexivity.
  - unfold handleGenerate_request, generateThumbnail_request, attachments. simpl.
    rewrite !parts_sequence. unfold attachment_sequence.
    rewrite map_app. simpl map.
    rewrite numbered_references_snoc, length_map.
    now rewrite !app_assoc.
Qed.

Lemma upload_reference_appends_witness :
  option_map (fun s => map up_data (referenceImages s))
             (handleFileUpload (Some [Scenario.photo]) as_reference
                               Scenario.two_references)
  = Some [lit "QUFB"; lit "QkJC"; lit "AAAABBBB"].
Proof.
  destruct (upload_reference_appends Scenario.photo [] Scenario.two_references
              (lit "data:image/png;base64") (lit "AAAABBBB")
              eq_refl eq_refl eq_refl) as (-> & _).
  reflexivity.
Defined.

(** X5: what an upload does, case by case.  With no file chosen nothing
    changes.  When the first chosen file cannot be read, whatever the
    slot, "Failed to process image." is shown and nothing else changes.
    When it reads as a data URL, its name and the payload of the URL go
    into the chosen slot, replacing the headshot or the logo or joining
    the references at the end, and nothing else changes: the error shown
    stays, and the loading state, the image and the texts are not
    touched.  Files chosen after the first are never looked at. *)
Theorem upload_outcomes
    (file : File) (others : list File) (type : UploadType) (cur : State) :
  handleFileUpload None type cur = Some cur
  /\ handleFileUpload (Some []) type cur = Some cur
  /\ (file_read file = Rejected ->
      handleFileUpload (Some (file :: others)) type cur
      = Some (setError (Some (lit "Failed to process image.")) cur))
  /\ (forall prefix payload,
        file_read file = Resolved (prefix ++ comma :: payload) ->
        comma_free prefix = true ->
        comma_free payload = true ->
        let upload := mkUpload (file_name file) payload in
        handleFileUpload (Some (file :: others)) type cur
        = Some (match type with
                | as_headshot => setHeadshot (Some upload) cur
                | as_logo => setLogo (Some upload) cur
                | as_reference =>
                    setReferenceImages (referenceImages cur ++ [upload]) cur
                end)).
Proof.
  split; [reflexivity |]. split; [reflexivity |]. split.
  - intros Hread. unfold handleFileUpload. now rewrite Hread.
  - intros prefix payload Hread Hp Hq upload.
    unfold handleFileUpload. rewrite Hread.
    rewrite (fileToBase64_data_url prefix payload Hp Hq).
    reflexivity.
Qed.

Lemma upload_outcomes_witness :
  handleFileUpload (Some [Scenario.unreadable]) as_logo Sample.busy_session
  = Some (setError (Some msg_process_failed) Sample.busy_session)
  /\ handleFileUpload (Some [Scenario.photo; Scenario.unreadable]) as_headshot
                      Sample.busy_session
     = Some (setHeadshot (Some (mkUpload (lit "me.png") (lit "AAAABBBB")))
                         Sample.busy_session).
Proof.
  destruct (upload_outcomes Scenario.unreadable [] as_logo Sample.busy_session)
    as (_ & _ & Hfail & _).
  destruct (upload_outcomes Scenario.photo [Scenario.unreadable] as_headshot
              Sample.busy_session) as (_ & _ & _ & Hread).
  split.
  - exact (Hfail eq_refl).
  - exact (Hread (lit "data:image/png;base64") (lit "AAAABBBB") eq_refl eq_refl eq_refl).
Defined.

(* ------------------------------------------------------------------ *)
(** * What a generation sends *)

Lemma handleGenerate_call_request (s : State) (w : World) :
  sent (snd (handleGenerate_call s w)) = sent w ++ [handleGenerate_request s].
Proof. reflexivity. Qed.

Lemma handleGenerate_settle_sent (cap cur : State) (r : Outcome (option jsstring)) (w : World) :
  sent (snd (handleGenerate_settle cap r cur w)) = sent w.
Proof. destruct r as [[[|c B]|]|]; reflexivity. Qed.

Lemma handleEdit_settle_sent (cur : State) (r : Outcome (option jsstring)) (w : World) :
  sent (snd (handleEdit_settle r cur w)) = sent w.
Proof.
  destruct r as [[[|c B]|]|]; try reflexivity.
  unfold handleEdit_settle. simpl truthy_opt. cbv iota.
  destruct (generatedImage cur); reflexivity.
Qed.

(** X6: a generation that starts sends one request and no more, whatever
    comes back: the request is built from the state of the click, with
    its format's aspect ratio, its quality tier, and its own headshot,
    logo and references as attachments. *)
Theorem generation_sends_one_request (s : State) (w : World) :
  whitespace_only (prompt s) = false ->
  let q := handleGenerate_request s in
  sent (snd (handleGenerate s w)) = sent w ++ [q]
  /\ req_config q = ImageConfig (imageSize s) (ratio_of_format (videoFormat s))
  /\ promptText q
     = Some (textPrompt (prompt s) (title s) (videoFormat s) (Some (brandColors s)))
  /\ attachments q
     = attachment_sequence (videoFormat s)
                           (option_map up_data (headshot s))
                           (option_map up_data (logo s))
                           (map up_data (referenceImages s)).
Proof.
  intros H q. split; [| split; [| split]].
  - rewrite (handleGenerate_started s w H), handleGenerate_settle_sent.
    apply handleGenerate_call_request.
  - unfold q, handleGenerate_request, generateThumbnail_request. simpl.
    now rewrite aspectRatio_ratio_of_format.
  - unfold q, handleGenerate_request, generateThumbnail_request, promptText. simpl.
    now rewrite parts_sequence.
  - unfold q, handleGenerate_request, generateThumbnail_request, attachments. simpl.
    now rewrite parts_sequence.
Qed.

Lemma generation_sends_one_request_witness :
  List.length (sent (snd (handleGenerate Sample.session (Sample.world Sample.failing)))) = 1
  /\ request_aspectRatio (handleGenerate_request Sample.session) = Some (lit "9:16").
Proof.
  destruct (generation_sends_one_request Sample.session (Sample.world Sample.failing) eq_refl)
    as (Hs & Hc & _).
  split.
  - rewrite Hs. reflexivity.
  - unfold request_aspectRatio. rewrite Hc. reflexivity.
Defined.

(* ------------------------------------------------------------------ *)
(** * The prompt text *)

Lemma contains_here (x : jsstring) : contains x x.
Proof. exists [], []. now rewrite app_nil_r. Qed.

Lemma contains_left (x a b : jsstring) : contains x a -> contains x (a ++ b).
Proof.
  intros (pre & post & ->). exists pre, (post ++ b). now rewrite <- !app_assoc.
Qed.

Lemma contains_right (x a b : jsstring) : contains x b -> contains x (a ++ b).
Proof.
  intros (pre & post & ->). exists (a ++ pre), post. now rewrite <- !app_assoc.
Qed.

Lemma contains_prefix (x b : jsstring) : contains x (x ++ b).
Proof. apply contains_left, contains_here. Qed.

Lemma contains_prefix3 (a b c rest : jsstring) :
  contains (a ++ b ++ c) (a ++ b ++ c ++ rest).
Proof. exists [], rest. now rewrite <- !app_assoc. Qed.

Ltac find_piece :=
  first [ apply contains_here
        | apply contains_prefix
        | apply contains_prefix3
        | (apply contains_right; find_piece)
        | (apply contains_left; find_piece) ].

(** X7: the prompt text is never empty, and whatever the format, the
    title and the colours, it holds the description as typed, in one
    piece, right after the label of the format's template; a non-empty
    title stands in it between double quotes and non-empty brand colours
    after "brand colors: ". *)
Theorem textPrompt_embeds_inputs
    (p t : jsstring) (f : VideoFormat) (b : option jsstring) :
  textPrompt p t f b <> []
  /\ contains (para ++ description_label f ++ p) (textPrompt p t f b)
  /\ (truthy t = true ->
      contains (dquote ++ t ++ dquote) (textPrompt p t f b))
  /\ (truthy_opt b = true ->
      contains (lit "Use these specific brand colors: " ++ value_of b
                ++ lit ". Ensure they are dominant")
               (textPrompt p t f b)).
Proof.
  split; [| split; [| split]].
  - destruct f, b as [[|c cs]|], t as [|d ds]; discriminate.
  - destruct f, b as [[|c cs]|], (truthy t) eqn:Ht;
      unfold textPrompt, isFacebook, isShorts, description_label;
      simpl VideoFormat_eqb; simpl truthy_opt; cbv iota zeta; rewrite ?Ht;
      find_piece.
  - intros Ht.
    destruct f, b as [[|c cs]|];
      unfold textPrompt, isFacebook, isShorts;
      simpl VideoFormat_eqb; simpl truthy_opt; cbv iota zeta; rewrite Ht;
      find_piece.
  - intros Hb. destruct b as [[|c cs]|]; try discriminate.
    unfold textPrompt. rewrite Hb. simpl value_of.
    change (lit ". Ensure they are dominant or used as accents to maintain brand identity.")
      with (lit ". Ensure they are dominant"
            ++ lit " or used as accents to maintain brand identity.").
    change (lit "Color Palette: Use these specific brand colors: ")
      with (lit "Color Palette: " ++ lit "Use these specific brand colors: ").
    rewrite <- !app_assoc.
    apply contains_right, contains_right, contains_right.
    exists [], (lit " or used as accents to maintain brand identity.").
    now rewrite <- !app_assoc.
Qed.

Lemma textPrompt_embeds_inputs_witness :
  contains (dquote ++ lit "My Trip to Japan" ++ dquote)
           (textPrompt (lit "sunset over mountains") (lit "My Trip to Japan")
                       shorts (Some (lit "Neon Green")))
  /\ contains (lit "Use these specific brand colors: Neon Green. Ensure they are dominant")
              (textPrompt (lit "sunset over mountains") (lit "My Trip to Japan")
                          shorts (Some (lit "Neon Green"))).
Proof.
  destruct (textPrompt_embeds_inputs (lit "sunset over mountains")
              (lit "My Trip to Japan") shorts (Some (lit "Neon Green")))
    as (_ & _ & Ht & Hb).
  split; [exact (Ht eq_refl) | exact (Hb eq_refl)].
Defined.

(* ------------------------------------------------------------------ *)
(** * Reading the answer *)

(** X8: of the parts of an answer, the text parts in front are skipped
    and the first image part decides: its data is the result, also when
    more images follow or its data is missing; an answer of text parts
    only gives null. *)
Theorem first_inlineData_first_image
    (texts rest : list ResponsePart) (d : option jsstring) :
  forallb is_text texts = true ->
  first_inlineData (texts ++ RInlineData d :: rest) = d
  /\ first_inlineData texts = None.
Proof.
  induction texts as [|[t|d'] texts IH]; simpl; intros H.
  - auto.
  - apply IH, H.
  - discriminate.
Qed.

Lemma first_inlineData_first_image_witness :
  first_inlineData [RText (lit "Here you go"); RInlineData (Some Sample.bytes_B);
                    RInlineData (Some Sample.bytes_A)]
  = Some Sample.bytes_B.
Proof.
  destruct (first_inlineData_first_image [RText (lit "Here you go")]
              [RInlineData (Some Sample.bytes_A)] (Some Sample.bytes_B) eq_refl)
    as (H & _).
  exact H.
Defined.

(* ------------------------------------------------------------------ *)
(** * Title optimization *)

Lemma handleTitleOptimize_begin_started (s : State) :
  whitespace_only (title s) = false ->
  handleTitleOptimize_begin s
  = (setError None (setLoadingState optimizing_title s), true).
Proof.
  intros H. unfold handleTitleOptimize_begin.
  now rewrite (proj2 (trim_truthy _) H).
Qed.

(** X9: with an empty or white-space-only title [handleTitleOptimize]
    does nothing at all: no request, no message, no change of state. *)
Theorem blank_title_is_ignored
    (JSON_parse_titles : jsstring -> Outcome (list jsstring)) (s : State) (w : World) :
  whitespace_only (title s) = true ->
  handleTitleOptimize JSON_parse_titles s w = (s, w).
Proof.
  intros H. unfold handleTitleOptimize, handleTitleOptimize_begin.
  now rewrite (proj2 (trim_falsy _) H).
Qed.

Lemma blank_title_is_ignored_witness :
  let s := setTitle (lit "  ") Sample.session in
  let w := Sample.world Sample.failing in
  handleTitleOptimize Sample.no_titles s w = (s, w).
Proof.
  intros s w. exact (blank_title_is_ignored Sample.no_titles s w eq_refl).
Defined.

(** X10: a title optimization that starts sends one request, quoting the
    title.  If the call fails, or the answer has text that does not
    parse, the suggestions stay as they were and "Failed to optimize
    title. Please try again." is shown; if the answer has no text the
    suggestions become the empty list without any error; otherwise they
    become the parsed titles.  Nothing else of the state changes. *)
Theorem title_optimization_outcomes
    (JSON_parse_titles : jsstring -> Outcome (list jsstring)) (s : State) (w : World) :
  whitespace_only (title s) = false ->
  let q := optimizeTitle_request (title s) in
  let done := fst (handleTitleOptimize JSON_parse_titles s w) in
  let failed := setLoadingState idle (setError (Some msg_optimize_failed) s) in
  let replaced l := setLoadingState idle (setError None (setOptimizedTitles l s)) in
  sent (snd (handleTitleOptimize JSON_parse_titles s w)) = sent w ++ [q]
  /\ match backend w (List.length (sent w)) q with
     | Rejected => done = failed
     | Resolved answer =>
         if truthy_opt (resp_text answer) then
           match JSON_parse_titles (value_of (resp_text answer)) with
           | Resolved titles => done = replaced titles
           | Rejected => done = failed
           end
         else done = replaced []
     end.
Proof.
  intros H q done failed replaced. unfold done, handleTitleOptimize.
  rewrite (handleTitleOptimize_begin_started s H).
  unfold optimizeTitle, bind, generateContent, ret. simpl.
  split; [reflexivity |]. fold q.
  destruct (backend w (List.length (sent w)) q) as [answer|]; [| reflexivity].
  destruct (truthy_opt (resp_text answer)); [| reflexivity].
  destruct (JSON_parse_titles (value_of (resp_text answer))); reflexivity.
Qed.

Lemma title_optimization_outcomes_witness :
  let w := Sample.world (Sample.answering []) in
  let s := setOptimizedTitles [lit "Japan in 48 Hours"] Sample.session in
  optimizedTitles (fst (handleTitleOptimize Sample.no_titles s w)) = []
  /\ error (fst (handleTitleOptimize Sample.no_titles s w)) = None.
Proof.
  intros w s.
  destruct (title_optimization_outcomes Sample.no_titles s w eq_refl) as (_ & H).
  split; [exact (f_equal optimizedTitles H) | exact (f_equal error H)].
Defined.

(* ------------------------------------------------------------------ *)
(** * Editing *)

(** X11: without an image, or with an empty or white-space-only
    instruction, [handleEdit] does nothing at all. *)
Theorem edit_without_image_or_instruction_is_ignored (s : State) (w : World) :
  generatedImage s = None \/ whitespace_only (editPrompt s) = true ->
  handleEdit s w = (s, w).
Proof.
  intros [H | H]; unfold handleEdit, handleEdit_begin.
  - now rewrite H.
  - rewrite (proj2 (trim_falsy _) H). now destruct (generatedImage s).
Qed.

Lemma edit_without_image_or_instruction_is_ignored_witness :
  let s := setGeneratedImage None Sample.session in
  let w := Sample.world Sample.failing in
  handleEdit s w = (s, w).
Proof.
  intros s w.
  exact (edit_without_image_or_instruction_is_ignored s w (or_introl eq_refl)).
Defined.

Lemma handleEdit_started (s : State) (w : World) (g : GeneratedImage) :
  generatedImage s = Some g ->
  whitespace_only (editPrompt s) = false ->
  handleEdit s w
  = handleEdit_settle
      (scan_response (backend w (List.length (sent w))
                              (editThumbnail_request (gi_data g) (editPrompt s))))
      (setError None (setLoadingState editing_image s))
      (mkWorld (sent w ++ [editThumbnail_request (gi_data g) (editPrompt s)])
               (backend w) (reads w) (clock w)).
Proof.
  intros Hg Hp. unfold handleEdit.
  rewrite (handleEdit_begin_started s g Hg Hp).
  unfold handleEdit_call. rewrite Hg. reflexivity.
Qed.

Lemma handleEdit_call_result (s : State) (w : World) (g : GeneratedImage) :
  generatedImage s = Some g ->
  fst (handleEdit_call s w)
  = scan_response (backend w (List.length (sent w))
                           (editThumbnail_request (gi_data g) (editPrompt s))).
Proof. intros Hg. unfold handleEdit_call. now rewrite Hg. Qed.

(** X12: an edit that comes back with a non-empty image puts it in place
    of the data of the image on screen and gives the image a new id, the
    clock reading of the moment; mime type, prompt, timestamp and format
    stay, the instruction field is emptied and no error is shown.  One
    request was sent, with the image's data and the instruction as typed.
    Should the image have gone when the answer arrives, the answer is
    dropped and the instruction emptied all the same. *)
Theorem successful_edit_keeps_metadata
    (s : State) (w : World) (g : GeneratedImage) (B : jsstring) :
  generatedImage s = Some g ->
  whitespace_only (editPrompt s) = false ->
  fst (handleEdit_call s w) = Resolved (Some B) ->
  truthy B = true ->
  let done := fst (handleEdit s w) in
  generatedImage done
  = Some (mkGeneratedImage (Number_toString (clock w (reads w))) B
                           (gi_mimeType g) (gi_prompt g) (gi_timestamp g) (gi_format g))
  /\ editPrompt done = []
  /\ error done = None
  /\ loadingState done = idle
  /\ sent (snd (handleEdit s w))
     = sent w ++ [editThumbnail_request (gi_data g) (editPrompt s)]
  /\ (forall cur w1,
        generatedImage cur = None ->
        generatedImage (fst (handleEdit_settle (Resolved (Some B)) cur w1)) = None
        /\ editPrompt (fst (handleEdit_settle (Resolved (Some B)) cur w1)) = []).
Proof.
  intros Hg Hp Hr HB done. unfold done.
  rewrite (handleEdit_call_result s w g Hg) in Hr.
  rewrite (handleEdit_started s w g Hg Hp), Hr.
  unfold handleEdit_settle. simpl truthy_opt. rewrite HB. simpl.
  rewrite Hg. simpl.
  repeat (split; [reflexivity |]).
  intros cur w1 Hn. rewrite Hn. simpl. auto.
Qed.

Lemma successful_edit_keeps_metadata_witness :
  let w := Sample.world (Sample.answering [RInlineData (Some Sample.bytes_B)]) in
  generatedImage (fst (handleEdit Sample.session w))
  = Some (mkGeneratedImage (lit "1700000000000") Sample.bytes_B image_png
                           (lit "city at night") 1699999990000 long_form)
  /\ editPrompt (fst (handleEdit Sample.session w)) = [].
Proof.
  intros w.
  destruct (successful_edit_keeps_metadata Sample.session w Sample.old_image
              Sample.bytes_B eq_refl eq_refl eq_refl eq_refl) as (Hi & Hp & _).
  split; [exact Hi | exact Hp].
Defined.

(** X13: an edit whose call raises leaves the image and the instruction
    as they are, shows "Editing failed." and returns to idle. *)
Theorem failed_edit_keeps_image (s : State) (w : World) (g : GeneratedImage) :
  generatedImage s = Some g ->
  whitespace_only (editPrompt s) = false ->
  fst (handleEdit_call s w) = Rejected ->
  fst (handleEdit s w)
  = setLoadingState idle (setError (Some (lit "Editing failed.")) s).
Proof.
  intros Hg Hp Hr.
  rewrite (handleEdit_call_result s w g Hg) in Hr.
  rewrite (handleEdit_started s w g Hg Hp), Hr. reflexivity.
Qed.

Lemma failed_edit_keeps_image_witness :
  let done := fst (handleEdit Sample.session (Sample.world Sample.failing)) in
  generatedImage done = Some Sample.old_image
  /\ editPrompt done = lit "add retro filter"
  /\ error done = Some msg_editing_failed.
Proof.
  intros done. unfold done.
  rewrite (failed_edit_keeps_image Sample.session (Sample.world Sample.failing)
             Sample.old_image eq_refl eq_refl eq_refl).
  repeat split.
Defined.

(* ------------------------------------------------------------------ *)
(** * The component over time *)

Section StudioFacts.

Variable JSON_parse_titles : jsstring -> Outcome (list jsstring).

Lemma handleFileUpload_loadingState files type cur s' :
  handleFileUpload files type cur = Some s' ->
  loadingState s' = loadingState cur.
Proof.
  unfold handleFileUpload.
  destruct files as [[|file others]|]; try (now intros [= <-]).
  destruct (fileToBase64 (file_read file)) as [[base64|]|];
    try discriminate; intros [= <-]; now destruct type.
Qed.

Lemma resume_idle (p : Pending) (cur : State) (w : World) :
  loadingState (fst (resume p cur w)) = idle.
Proof.
  destruct p; unfold resume.
  - apply handleTitleOptimize_settle_idle.
  - apply handleGenerate_settle_idle.
  - apply handleEdit_settle_idle.
Qed.

Lemma resume_sent (p : Pending) (cur : State) (w : World) :
  sent (snd (resume p cur w)) = sent w.
Proof.
  destruct p; unfold resume.
  - reflexivity.
  - apply handleGenerate_settle_sent.
  - apply handleEdit_settle_sent.
Qed.

Lemma LoadingState_eqb_idle (l : LoadingState) :
  LoadingState_eqb l idle = true <-> l = idle.
Proof. destruct l; simpl; split; congruence. Qed.

Lemma single_flight_idle (c : Studio) :
  single_flight c ->
  loadingState (ui c) = idle ->
  pending c = [].
Proof.
  unfold single_flight. destruct (pending c) as [|p [|p' ps]]; auto.
  - intros -> H. now destruct p.
  - contradiction.
Qed.

Lemma single_flight_input (f : State -> State) (c : Studio) :
  (forall s, loadingState (f s) = loadingState s) ->
  single_flight c -> single_flight (input f c).
Proof.
  intros Hf. unfold single_flight, input. simpl.
  destruct (pending c) as [|p [|p' ps]]; rewrite ?Hf; auto.
Qed.

Lemma single_flight_call_title (c : Studio) :
  single_flight c -> loadingState (ui c) = idle ->
  single_flight (call_handleTitleOptimize JSON_parse_titles c).
Proof.
  intros Hc Hi. pose proof (single_flight_idle c Hc Hi) as Hp.
  unfold call_handleTitleOptimize, handleTitleOptimize_begin.
  destruct (negb (truthy (trim (title (ui c))))).
  - unfold single_flight. simpl. now rewrite Hp.
  - destruct (optimizeTitle JSON_parse_titles (title (ui c)) (world c)) as [r w1].
    unfold single_flight. simpl. now rewrite Hp.
Qed.

Lemma single_flight_call_generate (c : Studio) :
  single_flight c -> loadingState (ui c) = idle ->
  single_flight (call_handleGenerate c).
Proof.
  intros Hc Hi. pose proof (single_flight_idle c Hc Hi) as Hp.
  unfold call_handleGenerate, handleGenerate_begin.
  destruct (negb (truthy (trim (prompt (ui c))))).
  - unfold single_flight. simpl. now rewrite Hp.
  - destruct (handleGenerate_call (ui c) (world c)) as [r w1].
    unfold single_flight. simpl. now rewrite Hp.
Qed.

Lemma single_flight_call_edit (c : Studio) :
  single_flight c -> loadingState (ui c) = idle ->
  single_flight (call_handleEdit c).
Proof.
  intros Hc Hi. pose proof (single_flight_idle c Hc Hi) as Hp.
  unfold call_handleEdit, handleEdit_begin.
  destruct (generatedImage (ui c)).
  - destruct (negb (truthy (trim (editPrompt (ui c))))).
    + unfold single_flight. simpl. now rewrite Hp.
    + destruct (handleEdit_call (ui c) (world c)) as [r w1].
      unfold single_flight. simpl. now rewrite Hp.
  - unfold single_flight. simpl. now rewrite Hp.
Qed.

Lemma single_flight_step (e : Event) (c c' : Studio) :
  is_enter e = false ->
  single_flight c ->
  step JSON_parse_titles e c = Some c' ->
  single_flight c'.
Proof.
  intros He Hc. destruct e; simpl in He; try discriminate; simpl;
    try (intros [= <-]; now apply single_flight_input).
  - (* ChangeEditPrompt *)
    intros [= <-]. destruct (edit_bar_rendered (ui c)); [| exact Hc].
    now apply single_flight_input.
  - (* PickSuggestion *)
    intros [= <-]. destruct (optimize_rendered (ui c)); [| exact Hc].
    destruct (nth_error (optimizedTitles (ui c)) i); [| exact Hc].
    now apply single_flight_input.
  - (* ChooseFile *)
    destruct (handleFileUpload files type (ui c)) as [s1|] eqn:E; [| discriminate].
    intros [= <-]. apply handleFileUpload_loadingState in E.
    unfold single_flight in *. simpl.
    destruct (pending c) as [|p [|p' ps]]; rewrite ?E; auto.
  - (* ClearHeadshot *)
    intros [= <-]. destruct (headshot (ui c)); [| exact Hc].
    now apply single_flight_input.
  - (* ClearLogo *)
    intros [= <-]. destruct (logo (ui c)); [| exact Hc].
    now apply single_flight_input.
  - (* ClickRemoveReference *)
    intros [= <-]. destruct (idx <? List.length (referenceImages (ui c))); [| exact Hc].
    now apply single_flight_input.
  - (* ClickOptimize *)
    intros [= <-]. unfold optimize_disabled.
    destruct (optimize_rendered (ui c)); [| exact Hc].
    destruct (LoadingState_eqb (loadingState (ui c)) idle) eqn:E; [| exact Hc].
    destruct (truthy (title (ui c))); [| exact Hc]. simpl.
    apply single_flight_call_title; [exact Hc | now apply LoadingState_eqb_idle].
  - (* ClickGenerate *)
    intros [= <-]. unfold generate_disabled.
    destruct (LoadingState_eqb (loadingState (ui c)) idle) eqn:E; [| exact Hc].
    destruct (truthy (prompt (ui c))); [| exact Hc]. simpl.
    apply single_flight_call_generate; [exact Hc | now apply LoadingState_eqb_idle].
  - (* ClickApply *)
    intros [= <-]. unfold apply_disabled.
    destruct (edit_bar_rendered (ui c)); [| exact Hc].
    destruct (LoadingState_eqb (loadingState (ui c)) idle) eqn:E; [| exact Hc].
    destruct (truthy (editPrompt (ui c))); [| exact Hc]. simpl.
    apply single_flight_call_edit; [exact Hc | now apply LoadingState_eqb_idle].
  - (* Settle *)
    intros [= <-]. unfold single_flight in Hc.
    destruct (pending c) as [|p [|p' ps]] eqn:Hp.
    + destruct i; simpl; unfold single_flight; now rewrite Hp.
    + destruct i as [|i]; simpl.
      * pose proof (resume_idle p (ui c) (world c)) as Hi.
        destruct (resume p (ui c) (world c)) as [s1 w1].
        unfold single_flight. simpl. exact Hi.
      * destruct i; simpl; unfold single_flight; now rewrite Hp.
    + contradiction.
Qed.

End StudioFacts.

(** X14: starting from the mounted component, whatever the user types,
    picks, uploads, removes and clicks and in whatever order the answers
    arrive, as long as the Enter key is not used in the edit input there
    is never more than one operation in flight, and the loading state is
    idle exactly when none is. *)
Theorem one_operation_at_a_time
    (JSON_parse_titles : jsstring -> Outcome (list jsstring))
    (es : list Event) (w : World) (c : Studio) :
  existsb is_enter es = false ->
  run JSON_parse_titles es (mounted w) = Some c ->
  List.length (pending c) <= 1
  /\ (loadingState (ui c) = idle <-> pending c = []).
Proof.
  intros He Hrun.
  assert (G : single_flight c).
  { assert (H0 : single_flight (mounted w)) by reflexivity.
    revert He Hrun H0. generalize (mounted w).
    induction es as [|e rest IH]; intros c0 He Hrun H0; simpl in *.
    - now injection Hrun as <-.
    - apply orb_false_iff in He as [He1 He2].
      destruct (step JSON_parse_titles e c0) as [c1|] eqn:E; [| discriminate].
      apply (IH c1 He2 Hrun).
      exact (single_flight_step JSON_parse_titles e c0 c1 He1 H0 E). }
  unfold single_flight in G.
  destruct (pending c) as [|p [|p' ps]]; simpl.
  - split; [lia | tauto].
  - split; [lia |]. rewrite G. split; [now destruct p | discriminate].
  - contradiction.
Qed.

Lemma one_operation_at_a_time_witness :
  let w := Sample.world (Sample.answering [RInlineData (Some Sample.bytes_B)]) in
  let es := [ChangePrompt (lit "sunset over mountains"); ClickGenerate;
             ClickGenerate; ChangeTitle (lit "Japan"); ClickOptimize] in
  exists c, run Sample.no_titles es (mounted w) = Some c
            /\ List.length (pending c) <= 1
            /\ (loadingState (ui c) = idle <-> pending c = []).
Proof.
  intros w es. eexists. split; [reflexivity |].
  exact (one_operation_at_a_time Sample.no_titles es w _ eq_refl eq_refl).
Defined.

(** X15: while an operation is in flight, a click on Optimize, on
    Generate or on Apply does nothing: the state, the operations in
    flight and the requests sent are the same after it. *)
Theorem buttons_ignored_while_busy
    (JSON_parse_titles : jsstring -> Outcome (list jsstring)) (c : Studio) :
  LoadingState_eqb (loadingState (ui c)) idle = false ->
  step JSON_parse_titles ClickOptimize c = Some c
  /\ step JSON_parse_titles ClickGenerate c = Some c
  /\ step JSON_parse_titles ClickApply c = Some c.
Proof.
  intros H. simpl.
  unfold optimize_disabled, generate_disabled, apply_disabled. rewrite H. simpl.
  rewrite !andb_false_r. auto.
Qed.

Lemma buttons_ignored_while_busy_witness :
  let c := Scenario.generating (Sample.world Sample.failing) in
  step Sample.no_titles ClickApply c = Some c
  /\ step Sample.no_titles ClickOptimize c = Some c.
Proof.
  intros c.
  destruct (buttons_ignored_while_busy Sample.no_titles c eq_refl) as (Ho & _ & Ha).
  split; [exact Ha | exact Ho].
Defined.

(** X16: the Enter key in the edit input is not held back by the loading
    state.  With an image on screen and an instruction typed, Enter
    pressed while another operation is in flight sends the edit request
    and puts a second operation in flight; when the first one settles
    the loading state reads idle although the edit is still awaited. *)
Theorem enter_key_overlaps_operations
    (JSON_parse_titles : jsstring -> Outcome (list jsstring))
    (c : Studio) (p : Pending) (g : GeneratedImage) :
  pending c = [p] ->
  generatedImage (ui c) = Some g ->
  whitespace_only (editPrompt (ui c)) = false ->
  exists c1 c2 r,
    step JSON_parse_titles PressEnterInEdit c = Some c1
    /\ pending c1 = [p; AwaitingEdit r]
    /\ sent (world c1)
       = sent (world c) ++ [editThumbnail_request (gi_data g) (editPrompt (ui c))]
    /\ step JSON_parse_titles (Settle 0) c1 = Some c2
    /\ pending c2 = [AwaitingEdit r]
    /\ loadingState (ui c2) = idle.
Proof.
  intros Hp Hg Hi.
  simpl. unfold edit_bar_rendered, call_handleEdit. rewrite Hg.
  rewrite (handleEdit_begin_started (ui c) g Hg Hi).
  unfold handleEdit_call. rewrite Hg. unfold editThumbnail, bind, generateContent, ret.
  simpl. rewrite Hp. simpl.
  pose proof (resume_idle p (setError None (setLoadingState editing_image (ui c)))
                (mkWorld (sent (world c)
                          ++ [editThumbnail_request (gi_data g) (editPrompt (ui c))])
                         (backend (world c)) (reads (world c)) (clock (world c))))
    as Hidle.
  destruct (resume p _ _) as [s2 w2] eqn:E.
  do 3 eexists. split; [reflexivity |]. simpl.
  split; [reflexivity |]. split; [reflexivity |].
  rewrite E. split; [reflexivity |]. simpl.
  split; [reflexivity | exact Hidle].
Qed.

Lemma enter_key_overlaps_operations_witness :
  let c := Scenario.generating (Sample.world Sample.failing) in
  exists c1, step Sample.no_titles PressEnterInEdit c = Some c1
             /\ List.length (pending c1) = 2
             /\ List.length (sent (world c1)) = 1.
Proof.
  intros c.
  destruct (enter_key_overlaps_operations Sample.no_titles c
              (AwaitingImage Sample.session Rejected) Sample.old_image
              eq_refl eq_refl eq_refl)
    as (c1 & c2 & r & H1 & Hp & Hs & _).
  exists c1. split; [exact H1 |]. split.
  - rewrite Hp. reflexivity.
  - rewrite Hs. reflexivity.
Defined.

Lemma call_sends_at_most_one (JSON_parse_titles : jsstring -> Outcome (list jsstring))
    (c : Studio) :
  (exists qs, sent (world (call_handleTitleOptimize JSON_parse_titles c))
              = sent (world c) ++ qs /\ List.length qs <= 1)
  /\ (exists qs, sent (world (call_handleGenerate c)) = sent (world c) ++ qs
                 /\ List.length qs <= 1)
  /\ (exists qs, sent (world (call_handleEdit c)) = sent (world c) ++ qs
                 /\ List.length qs <= 1).
Proof.
  assert (N : exists qs : list ApiRequest,
             sent (world c) = sent (world c) ++ qs /\ List.length qs <= 1).
  { exists []. rewrite app_nil_r. simpl. auto. }
  split; [| split].
  - unfold call_handleTitleOptimize.
    destruct (handleTitleOptimize_begin (ui c)) as [s1 [|]]; [| exact N].
    simpl. eexists. split; [reflexivity | simpl; lia].
  - unfold call_handleGenerate.
    destruct (handleGenerate_begin (ui c)) as [s1 [|]]; [| exact N].
    simpl. eexists. split; [reflexivity | simpl; lia].
  - unfold call_handleEdit, handleEdit_call.
    destruct (handleEdit_begin (ui c)) as [s1 [|]]; [| exact N].
    destruct (generatedImage (ui c)); [| exact N].
    simpl. eexists. split; [reflexivity | simpl; lia].
Qed.

(** X17: requests leave only on a click of Optimize, Generate or Apply or
    on Enter in the edit input, one at most for each; typing, choosing,
    uploading, removing and, above all, the settling of an answer,
    failed or not, send nothing: no operation is retried. *)
Theorem requests_only_on_triggers
    (JSON_parse_titles : jsstring -> Outcome (list jsstring))
    (e : Event) (c c' : Studio) :
  step JSON_parse_titles e c = Some c' ->
  exists qs,
    sent (world c') = sent (world c) ++ qs
    /\ List.length qs <= 1
    /\ (is_trigger e = false -> qs = []).
Proof.
  assert (N : forall c0 : Studio, sent (world c0) = sent (world c) ->
              exists qs : list ApiRequest,
                sent (world c0) = sent (world c) ++ qs /\ List.length qs <= 1
                /\ (is_trigger e = false -> qs = [])).
  { intros c0 H. exists []. rewrite app_nil_r. simpl. auto. }
  destruct (call_sends_at_most_one JSON_parse_titles c)
    as ((qt & Ht & Lt) & (qg & Hg & Lg) & (qe & He & Le)).
  destruct e; simpl; intros E;
    try (injection E as <-; apply N; reflexivity).
  - injection E as <-. apply N. now destruct (edit_bar_rendered (ui c)).
  - injection E as <-. apply N.
    destruct (optimize_rendered (ui c)); [| reflexivity].
    now destruct (nth_error (optimizedTitles (ui c)) i).
  - destruct (handleFileUpload files type (ui c)); [| discriminate].
    injection E as <-. apply N. reflexivity.
  - injection E as <-. apply N. now destruct (headshot (ui c)).
  - injection E as <-. apply N. now destruct (logo (ui c)).
  - injection E as <-. apply N.
    now destruct (idx <? List.length (referenceImages (ui c))).
  - injection E as <-.
    destruct (optimize_rendered (ui c) && negb (optimize_disabled (ui c))).
    + exists qt. split; [exact Ht |]. split; [exact Lt | discriminate].
    + exists []. rewrite app_nil_r. simpl. split; [reflexivity |]. split; [lia | discriminate].
  - injection E as <-. destruct (generate_disabled (ui c)).
    + exists []. rewrite app_nil_r. simpl. split; [reflexivity |]. split; [lia | discriminate].
    + exists qg. split; [exact Hg |]. split; [exact Lg | discriminate].
  - injection E as <-.
    destruct (edit_bar_rendered (ui c) && negb (apply_disabled (ui c))).
    + exists qe. split; [exact He |]. split; [exact Le | discriminate].
    + exists []. rewrite app_nil_r. simpl. split; [reflexivity |]. split; [lia | discriminate].
  - injection E as <-. destruct (edit_bar_rendered (ui c)).
    + exists qe. split; [exact He |]. split; [exact Le | discriminate].
    + exists []. rewrite app_nil_r. simpl. split; [reflexivity |]. split; [lia | discriminate].
  - injection E as <-. apply N.
    destruct (nth_error (pending c) i) as [p|]; [| reflexivity].
    pose proof (resume_sent p (ui c) (world c)) as Hs.
    destruct (resume p (ui c) (world c)) as [s1 w1]. exact Hs.
Qed.

Lemma requests_only_on_triggers_witness :
  let c := Scenario.generating (Sample.world Sample.failing) in
  exists c', step Sample.no_titles (Settle 0) c = Some c'
             /\ sent (world c') = sent (world c)
             /\ error (ui c') = Some msg_generation_failed.
Proof.
  intros c. eexists. split; [reflexivity |].
  destruct (requests_only_on_triggers Sample.no_titles (Settle 0) c _ eq_refl)
    as (qs & Hs & _ & Hq).
  rewrite (Hq eq_refl), app_nil_r in Hs.
  split; [exact Hs | reflexivity].
Defined.

(** A click on Generate followed at once by the answer is the handler run
    in one go. *)
Lemma click_then_settle_is_handleGenerate
    (JSON_parse_titles : jsstring -> Outcome (list jsstring)) (s : State) (w : World) :
  generate_disabled s = false ->
  whitespace_only (prompt s) = false ->
  run JSON_parse_titles [ClickGenerate; Settle 0] (mkStudio s [] w)
  = Some (mkStudio (fst (handleGenerate s w)) [] (snd (handleGenerate s w))).
Proof.
  intros Hd Hp. rewrite (handleGenerate_started s w Hp).
  simpl. rewrite Hd. unfold call_handleGenerate. simpl.
  rewrite (handleGenerate_begin_started s Hp). simpl.
  match goal with
  | |- Some (let (_, _) := ?x in _) = _ => destruct x
  end.
  reflexivity.
Qed.

(* ------------------------------------------------------------------ *)
(** * The key selector and the application shell *)

Lemma click_select_key_settled (aistudio : option AiStudio) (a : Shell) :
  isLoading a = false -> hasKey a = apiKeySelected a ->
  let a' := click_select_key aistudio a in
  isLoading a' = false
  /\ hasKey a' = apiKeySelected a'
  /\ apiKeySelected a' = apiKeySelected a || dialog_completes aistudio.
Proof.
  intros Hl Hk. unfold click_select_key, ApiKeySelector_render, handleSelectKey,
    dialog_completes. rewrite Hl.
  destruct (hasKey a) eqn:E.
  - rewrite <- Hk. simpl. rewrite Hl, E. auto.
  - rewrite <- Hk.
    destruct aistudio as [[check [[u|]|]]|]; simpl; rewrite ?Hl, ?E; auto.
Qed.

(** X18: once the check made on mount has settled, in whatever way, the
    loading message is gone for good, and from then on the studio is
    rendered exactly when the setup card is not: after the check and any
    number of clicks on "Select API Key", one of the two is on screen and
    never both.  The studio is rendered exactly if the check found a
    selected key or the key dialog has once been opened and closed
    without an error, whether or not a key was picked in it. *)
Theorem setup_card_or_studio
    (on_mount : option AiStudio) (clicks : list (option AiStudio)) :
  let a := shell_run on_mount clicks in
  isLoading a = false
  /\ (ApiKeySelector_render a = SetupCard <-> CreatorStudio_rendered a = false)
  /\ (ApiKeySelector_render a = Nothing <-> CreatorStudio_rendered a = true)
  /\ CreatorStudio_rendered a
     = key_found on_mount || existsb dialog_completes clicks.
Proof.
  intros a.
  assert (G : isLoading a = false /\ hasKey a = apiKeySelected a
              /\ apiKeySelected a = key_found on_mount || existsb dialog_completes clicks).
  { unfold a, shell_run.
    assert (H0 : isLoading (checkKey on_mount shell_mounted) = false
                 /\ hasKey (checkKey on_mount shell_mounted)
                    = apiKeySelected (checkKey on_mount shell_mounted)
                 /\ apiKeySelected (checkKey on_mount shell_mounted) = key_found on_mount).
    { destruct on_mount as [[[[[|]|]|] open]|]; simpl; auto. }
    revert H0. generalize (checkKey on_mount shell_mounted) as a0.
    generalize (key_found on_mount) as k.
    induction clicks as [|x xs IH]; intros k a0 (Hl & Hk & Hs); simpl.
    - rewrite orb_false_r. auto.
    - destruct (click_select_key_settled x a0 Hl Hk) as (Hl' & Hk' & Hs').
      destruct (IH (k || dialog_completes x) _
                   (conj Hl' (conj Hk' (eq_trans Hs' (f_equal (fun b => b || _) Hs)))))
        as (R1 & R2 & R3).
      rewrite orb_assoc. auto. }
  destruct G as (Hl & Hk & Hs).
  unfold ApiKeySelector_render, CreatorStudio_rendered.
  rewrite Hl, Hk, <- Hs.
  split; [reflexivity |].
  destruct (apiKeySelected a); repeat split; congruence.
Qed.

Lemma setup_card_or_studio_witness :
  let a := shell_run Scenario.in_ai_studio [Scenario.in_ai_studio] in
  CreatorStudio_rendered a = true /\ ApiKeySelector_render a = Nothing
  /\ ApiKeySelector_render (shell_run Scenario.in_ai_studio []) = SetupCard.
Proof.
  intros a.
  destruct (setup_card_or_studio Scenario.in_ai_studio [Scenario.in_ai_studio])
    as (_ & _ & Hn & Hs).
  destruct (setup_card_or_studio Scenario.in_ai_studio []) as (_ & Hc & _ & Hs0).
  split; [exact Hs |]. split; [exact (proj2 Hn Hs) | exact (proj2 Hc Hs0)].
Defined.

(** X19: where [window.aistudio] is missing the studio is never rendered,
    whatever is clicked: the setup card stays. *)
Theorem no_studio_outside_ai_studio (clicks : list (option AiStudio)) :
  forallb (fun x => match x with None => true | Some _ => false end) clicks = true ->
  let a := shell_run None clicks in
  CreatorStudio_rendered a = false /\ ApiKeySelector_render a = SetupCard.
Proof.
  intros H a. unfold a, shell_run. simpl.
  induction clicks as [|x xs IH]; simpl in *.
  - auto.
  - apply andb_prop in H as [Hx Hxs]. destruct x; [discriminate |].
    exact (IH Hxs).
Qed.

Lemma no_studio_outside_ai_studio_witness :
  CreatorStudio_rendered (shell_run None [None; None]) = false.
Proof.
  exact (proj1 (no_studio_outside_ai_studio [None; None] eq_refl)).
Defined.
